(** * EMBI report: the metrics pipeline of [app.py]

    A shallow embedding of the Streamlit script [app.py] (schema adaptation in
    [load_data], the period anchors, the per-region aggregation with its
    basis-point deltas and the spread against the reference region, and the
    50-observation rolling mean), followed by the properties proved about it.

    Conventions.
    - A polars [Float64] is a primitive binary64 float; a polars [Date] is the
      number of days since 1970-01-01, held in [Z]; a polars [Utf8] is a
      [string].
    - Every polars value may be null: a column is a list of options and [None]
      is the null.  Python's [None] is [None] as well.
    - Dates are unbounded: the ends of the engine's 32-bit day count and of
      Python's [datetime.date] (years 1 to 9999) are not modelled.
    - A mean of floats is their sum from left to right divided by their
      count.
    - [group_by] is called without [maintain_order] and [sort] without
      [maintain_order]: the order in which the groups come out, and the order
      in which the sort leaves equal keys, are not fixed by the data.  Both are
      explicit arguments (an [order]) of the functions that embed them. *)

From Stdlib Require Import ZArith List String Ascii Bool Lia.
From Stdlib Require Import Floats Permutation Sorted.
Import ListNotations.

Local Open Scope string_scope.
Local Open Scope list_scope.
Local Open Scope Z_scope.

(** ** Nullable values *)

Module Null.

(** A binary operator on two nullable operands: null as soon as one is. *)
Definition lift2 {A B C : Type} (f : A -> B -> C)
  (a : option A) (b : option B) : option C :=
  match a, b with
  | Some x, Some y => Some (f x y)
  | _, _ => None
  end.

(** Kleene conjunction, polars' [&] on nullable booleans. *)
Definition and3 (a b : option bool) : option bool :=
  match a, b with
  | Some false, _ | _, Some false => Some false
  | Some true, Some true => Some true
  | _, _ => None
  end.

(** [filter] keeps the rows whose predicate is true, dropping false and null. *)
Definition holds (p : option bool) : bool :=
  match p with
  | Some true => true
  | _ => false
  end.

End Null.

(** ** Calendar dates

    [datetime.date] attributes and polars' [dt.year()] / [dt.month()] on the
    proleptic Gregorian calendar, over the day count since 1970-01-01. *)

Module Calendar.

Definition Date := Z.

(** Year, month and day of a day count (era / day-of-era decomposition over
    the 400-year cycle of 146097 days, years starting on March 1). *)
Definition civil (days : Date) : Z * Z * Z :=
  let z := days + 719468 in
  let era := z / 146097 in
  let doe := z - era * 146097 in
  let yoe := (doe - doe / 1460 + doe / 36524 - doe / 146096) / 365 in
  let doy := doe - (365 * yoe + yoe / 4 - yoe / 100) in
  let mp := (5 * doy + 2) / 153 in
  let d := doy - (153 * mp + 2) / 5 + 1 in
  let m := if mp <? 10 then mp + 3 else mp - 9 in
  let y := yoe + era * 400 + (if m <=? 2 then 1 else 0) in
  (y, m, d).

Definition year (d : Date) : Z := fst (fst (civil d)).
Definition month (d : Date) : Z := snd (fst (civil d)).
Definition day (d : Date) : Z := snd (civil d).

(** [datetime.date(y, m, d)] as a day count. *)
Definition ymd (y m d : Z) : Date :=
  let y' := if m <=? 2 then y - 1 else y in
  let era := y' / 400 in
  let yoe := y' - era * 400 in
  let mp := if 2 <? m then m - 3 else m + 9 in
  let doy := (153 * mp + 2) / 5 + d - 1 in
  let doe := yoe * 365 + yoe / 4 - yoe / 100 + doy in
  era * 146097 + doe - 719468.

(** [d - timedelta(days=n)]. *)
Definition minus_days (d : Date) (n : Z) : Date := d - n.

End Calendar.

Import Calendar.

(** ** The tidy table *)

(** One row of the collected frame [df], restricted to the three canonical
    columns the script reads. *)
Record row : Type := mkRow {
  date : option Date;
  region : option string;
  value : option float
}.

(** The spec's invariant on a tidy series: the three fields are present. *)
Definition tidy_row (r : row) : Prop :=
  date r <> None /\ region r <> None /\ value r <> None.

Definition tidy (df : list row) : Prop := Forall tidy_row df.

(** ** Column reductions *)

Module Col.

(** [pl.col(c).max()]: the largest non-null entry, null when there is none. *)
Fixpoint max (xs : list (option Z)) : option Z :=
  match xs with
  | [] => None
  | None :: xs' => max xs'
  | Some x :: xs' =>
      match max xs' with
      | None => Some x
      | Some m => Some (Z.max x m)
      end
  end.

(** [pl.col(c).min()]. *)
Fixpoint min (xs : list (option Z)) : option Z :=
  match xs with
  | [] => None
  | None :: xs' => min xs'
  | Some x :: xs' =>
      match min xs' with
      | None => Some x
      | Some m => Some (Z.min x m)
      end
  end.

(** [expr.last()]: the last entry of the column, null when it is empty.  The
    entry itself may be null. *)
Fixpoint last {A : Type} (xs : list (option A)) : option A :=
  match xs with
  | [] => None
  | [x] => x
  | _ :: xs' => last xs'
  end.

End Col.

(** ** Anchor dates (lines 37-66) *)

Section Anchors.

Variable df : list row.

(** [df.select(pl.col("date").max()).item()] *)
Definition latest_date : option Date := Col.max (map date df).

(** [df.filter(p).select(pl.col("date").min()).item()] *)
Definition min_date_where (p : Date -> option bool) : option Date :=
  Col.min (map date
    (filter (fun r => Null.holds (match date r with
                                  | Some d => p d
                                  | None => None
                                  end)) df)).

Variable ld : Date.

Definition latest_year : Z := year ld.

Definition start_year : option Date :=
  min_date_where (fun d => Some (year d =? latest_year)).

Definition latest_quarter : Z := (month ld - 1) / 3.

Definition start_qtr : option Date :=
  min_date_where (fun d =>
    Null.and3 (Some (year d =? latest_year))
              (Some ((3 * latest_quarter + 1 <=? month d)
                     && (month d <=? 3 * latest_quarter + 3)))).

Definition start_month : option Date :=
  min_date_where (fun d =>
    Null.and3 (Some (year d =? latest_year))
              (Some (month d =? month ld))).

Definition month_ago : Date := minus_days ld 30.

(** The [periods] dict, in insertion order. *)
Definition periods : list (string * option Date) :=
  [ ("YTD", start_year); ("QTD", start_qtr);
    ("MTD", start_month); ("1M", Some month_ago) ].

End Anchors.

(** ** Float64 arithmetic used by the script *)

Module F64.

Local Open Scope float_scope.

(** The literal [1e2]. *)
Definition hundred : float := 100.

(** A row count as a float, the divisor of a mean. *)
Definition of_count (n : nat) : float :=
  of_uint63 (Uint63.of_Z (Z.of_nat n)).

(** Left-to-right sum. *)
Definition sum (xs : list float) : float := fold_left add xs 0.

Definition mean (xs : list float) : float :=
  sum xs / of_count (List.length xs).

(** [x] may stand before [y] in a descending sort: polars orders floats
    totally, with NaN above every number. *)
Definition geb (x y : float) : bool :=
  if is_nan x then true
  else if is_nan y then false
  else y <=? x.

(** A number: neither NaN nor an infinity. *)
Definition finite (x : float) : bool := is_finite x.

End F64.

(** [(a - b) * 1e2] on nullable floats. *)
Definition bps (a b : option float) : option float :=
  Null.lift2 PrimFloat.mul (Null.lift2 PrimFloat.sub a b) (Some F64.hundred).

(** ** Orders left open by the engine *)

Module Order.

(** An order is a list of insertion positions; the empty order keeps a list
    as it is. *)
Definition t := list nat.

Fixpoint insert_at {A : Type} (n : nat) (x : A) (l : list A) : list A :=
  match n, l with
  | O, _ => x :: l
  | S _, [] => [x]
  | S n', y :: l' => y :: insert_at n' x l'
  end.

Fixpoint arrange {A : Type} (o : t) (l : list A) : list A :=
  match l with
  | [] => []
  | x :: l' => insert_at (hd O o) x (arrange (tl o) l')
  end.

End Order.

(** ** Metrics aggregation (lines 67-90) *)

Definition key_eqb (a b : option string) : bool :=
  match a, b with
  | Some x, Some y => String.eqb x y
  | None, None => true
  | _, _ => false
  end.

(** The distinct keys of a column, each at its first occurrence. *)
Fixpoint distinct (ks : list (option string)) : list (option string) :=
  match ks with
  | [] => []
  | k :: ks' => k :: filter (fun k' => negb (key_eqb k' k)) (distinct ks')
  end.

(** The rows of one group, in the order of the frame. *)
Definition group_rows (df : list row) (k : option string) : list row :=
  filter (fun r => key_eqb (region r) k) df.

(** [lf.group_by("region")]: one group per distinct key (null is a key of its
    own); the groups come out in the order [og] makes of them. *)
Definition group_by (og : Order.t) (df : list row)
  : list (option string * list row) :=
  Order.arrange og
    (map (fun k => (k, group_rows df k)) (distinct (map region df))).

(** [pl.col("date") <= cutoff] as a filter: the rows dated at or before the
    cutoff; a null date or a null cutoff keeps nothing. *)
Definition upto (c : option Date) (r : row) : bool :=
  Null.holds (Null.lift2 Z.leb (date r) c).

(** [pl.col("value").filter(pl.col("date") <= cutoff).last()] on one group. *)
Definition last_value_upto (cutoff : option Date) (g : list row)
  : option float :=
  Col.last (map value (filter (upto cutoff) g)).

(** A row of [metrics]: the key, [Valor], and the ["{label} (bps)"] columns in
    the order of [periods]. *)
Record metric : Type := mkMetric {
  m_region : option string;
  Valor : option float;
  deltas : list (string * option float)
}.

(** [.agg( *agg_exprs)], then [.with_columns] of the deltas and [.drop] of the
    raw anchor values, for one group. *)
Definition agg (ld : Date) (ps : list (string * option Date))
  (g : option string * list row) : metric :=
  let valor := last_value_upto (Some ld) (snd g) in
  mkMetric (fst g) valor
    (map (fun p => (fst p, bps valor (last_value_upto (snd p) (snd g)))) ps).

(** Nulls first ([nulls_last] is left at its default), then NaN, then the
    numbers from the largest down. *)
Definition valor_geb (a b : option float) : bool :=
  match a, b with
  | None, _ => true
  | Some _, None => false
  | Some x, Some y => F64.geb x y
  end.

Fixpoint insert_desc (m : metric) (l : list metric) : list metric :=
  match l with
  | [] => [m]
  | m' :: l' =>
      if valor_geb (Valor m) (Valor m') then m :: l
      else m' :: insert_desc m l'
  end.

(** [.sort("Valor", descending=True)]: rows with equal keys are left in the
    order [os] makes of them. *)
Definition sort_desc (os : Order.t) (l : list metric) : list metric :=
  fold_right insert_desc [] (Order.arrange os l).

(** The [metrics] table (lines 73-83). *)
Definition metrics (og os : Order.t) (df : list row) (ld : Date)
  : list metric :=
  sort_desc os (map (agg ld (periods df ld)) (group_by og df)).

(** [str.to_lowercase()].  Only the letters A-Z are mapped: a name holding
    any other character does not lower-case to ["latino"], so the comparison
    with that name is the script's. *)
Definition lower (c : ascii) : ascii :=
  let n := nat_of_ascii c in
  if (Nat.leb 65 n && Nat.leb n 90)%bool then ascii_of_nat (n + 32) else c.

Fixpoint to_lowercase (s : string) : string :=
  match s with
  | EmptyString => EmptyString
  | String c s' => String (lower c) (to_lowercase s')
  end.

Definition is_latam (m : metric) : bool :=
  match m_region m with
  | Some s => String.eqb (to_lowercase s) "latino"
  | None => false
  end.

(** [metrics.filter(pl.col("region").str.to_lowercase() == "latino")] *)
Definition latam_row (ms : list metric) : list metric := filter is_latam ms.

(** [series.mean()]: over the non-null entries, null when there is none. *)
Definition col_mean (xs : list (option float)) : option float :=
  match flat_map (fun x => match x with Some v => [v] | None => [] end) xs with
  | [] => None
  | vs => Some (F64.mean vs)
  end.

Definition latam_val (ms : list metric) : option float :=
  match latam_row ms with
  | m :: _ => Valor m
  | [] => col_mean (map Valor ms)
  end.

(** A row of the final table: [metrics] with the ["Spread vs LatAm"] column. *)
Record summary : Type := mkSummary {
  s_metric : metric;
  Spread_vs_LatAm : option float
}.

Definition with_spread (ms : list metric) : list summary :=
  map (fun m => mkSummary m (bps (Valor m) (latam_val ms))) ms.

(** The summary table computed from the collected frame whose latest date is
    [ld]. *)
Definition summary_table (og os : Order.t) (df : list row) (ld : Date)
  : list summary :=
  with_spread (metrics og os df ld).

(** ** Filtered series and rolling mean (lines 139-171) *)

(** [pl.col("region").is_in(sel_regions)]: null on a null region. *)
Definition is_in (k : option string) (sel : list (option string)) : bool :=
  match k with
  | Some _ => existsb (key_eqb k) sel
  | None => false
  end.

Definition in_range (start_date end_date : Date) (r : row) : bool :=
  Null.holds
    (Null.and3 (Null.lift2 Z.geb (date r) (Some start_date))
               (Null.lift2 Z.leb (date r) (Some end_date))).

Definition series (sel_regions : list (option string))
  (start_date end_date : Date) (df : list row) : list row :=
  filter (in_range start_date end_date)
    (filter (fun r => is_in (region r) sel_regions) df).

(** The mean of a full window: null unless every entry is present, as
    [min_samples] defaults to the window size. *)
Fixpoint all_present (w : list (option float)) : option (list float) :=
  match w with
  | [] => Some []
  | Some x :: w' =>
      match all_present w' with
      | Some xs => Some (x :: xs)
      | None => None
      end
  | None :: _ => None
  end.

Definition window_mean (w : list (option float)) : option float :=
  match all_present w with
  | Some xs => Some (F64.mean xs)
  | None => None
  end.

(** [expr.rolling_mean(n)] on one column: at index [i] the window is the [n]
    entries ending at [i]; null while fewer than [n] entries have been seen. *)
Definition rolling_mean (n : nat) (xs : list (option float))
  : list (option float) :=
  map (fun i =>
         if Nat.ltb (S i) n then None
         else window_mean (firstn n (skipn (S i - n) xs)))
      (seq 0 (List.length xs)).

(** [expr.over("region")]: [f] is run on each group, and every row receives
    the entry of its group's result at the row's position in the group. *)
Definition over (f : list row -> list (option float)) (df : list row)
  : list (option float) :=
  map (fun i =>
         match nth_error df i with
         | Some r =>
             nth (List.length (group_rows (firstn i df) (region r)))
                 (f (group_rows df (region r))) None
         | None => None
         end)
      (seq 0 (List.length df)).

Record rolling_point : Type := mkPoint {
  p_date : option Date;
  p_region : option string;
  rolling50 : option float
}.

Definition roll (s : list row) : list rolling_point :=
  map (fun rx => mkPoint (date (fst rx)) (region (fst rx)) (snd rx))
      (combine s (over (fun g => rolling_mean 50 (map value g)) s)).

(** ** Schema adaptation ([load_data], lines 9-35) *)

(** A cell of the scanned file. *)
Inductive cell : Type :=
| CDate (d : Date)
| CStr (s : string)
| CFloat (f : float)
| CInt (z : Z).

(** A frame as the file holds it: named columns, in order. *)
Definition column : Type := string * list (option cell).
Definition frame : Type := list column.

Inductive error : Type :=
| ColumnNotFoundError (c : string) (* polars: the plan names an absent column *)
| InvalidOperationError            (* polars: a strict cast failed *)
| AttributeError.                  (* Python: attribute of [None] *)

(** How a run of the script ends: it goes through, it calls [st.error] and
    [st.stop()], or an exception escapes. *)
Inductive outcome (A : Type) : Type :=
| Done (a : A)
| Stopped (msg : string)
| Raised (e : error).

Arguments Done {A} a.
Arguments Stopped {A} msg.
Arguments Raised {A} e.

Definition names (f : frame) : list string := map fst f.

(** [c in lf.collect_schema()] *)
Definition has (c : string) (f : frame) : bool :=
  existsb (String.eqb c) (names f).

Fixpoint lookup (c : string) (f : frame) : option (list (option cell)) :=
  match f with
  | [] => None
  | (n, xs) :: f' => if String.eqb n c then Some xs else lookup c f'
  end.

(** [lf.rename({old: new})] *)
Definition rename (old new : string) (f : frame) : frame :=
  map (fun col => if String.eqb (fst col) old then (new, snd col) else col) f.

(** [lf.unpivot(index="date", on=cols, variable_name="region",
    value_name="value")]: the [on] columns are stacked one below the other, the
    index column is repeated beside each of them. *)
Definition unpivot (cols : list string) (f : frame) : error + frame :=
  match lookup "date" f with
  | None => inl (ColumnNotFoundError "date")
  | Some ds =>
      let on := filter (fun col => existsb (String.eqb (fst col)) cols) f in
      inr [ ("date", flat_map (fun _ => ds) on);
            ("region",
             flat_map (fun col => map (fun _ => Some (CStr (fst col))) ds) on);
            ("value", flat_map (fun col => snd col) on) ]
  end.

(** The renaming of a capitalised [Date] column when the file has no [date]
    column (lines 15-16). *)
Definition renamed (f : frame) : frame :=
  if (has "Date" f && negb (has "date" f))%bool
  then rename "Date" "date" f else f.

(** The frame before the casts (lines 14-24). *)
Definition adapt (f : frame) : error + frame :=
  let lf := renamed f in
  if (negb (has "region" lf) && negb (has "value" lf))%bool then
    let cols := filter (fun c => negb (String.eqb c "date")) (names lf) in
    unpivot cols lf
  else inr lf.

(** The collected frame: its column names, and the rows of the three cast
    columns. *)
Record DataFrame : Type := mkDataFrame {
  columns : list string;
  rows : list row
}.

Fixpoint zip3 (ds : list (option Date)) (gs : list (option string))
  (vs : list (option float)) : list row :=
  match ds, gs, vs with
  | d :: ds', g :: gs', v :: vs' => mkRow d g v :: zip3 ds' gs' vs'
  | _, _, _ => []
  end.

(** The message of the script's check of the canonical columns (line 34). *)
Definition missing_columns_report : string :=
  "Dataset missing required columns".

Section Casts.

(** What the engine's strict cast makes of a cell of another type; [None]
    when the cell cannot be converted.  A cell of the target type is kept. *)
Variable as_date : cell -> option Date.
Variable as_utf8 : cell -> option string.
Variable as_f64 : cell -> option float.

Definition to_date (c : cell) : option Date :=
  match c with CDate d => Some d | _ => as_date c end.

Definition to_utf8 (c : cell) : option string :=
  match c with CStr s => Some s | _ => as_utf8 c end.

Definition to_f64 (c : cell) : option float :=
  match c with CFloat x => Some x | _ => as_f64 c end.

(** [pl.col(c).cast(t)] over a column: a null stays null, a cell that does
    not convert fails the whole cast. *)
Fixpoint cast {A : Type} (conv : cell -> option A)
  (xs : list (option cell)) : option (list (option A)) :=
  match xs with
  | [] => Some []
  | None :: xs' => option_map (cons None) (cast conv xs')
  | Some c :: xs' =>
      match conv c, cast conv xs' with
      | Some a, Some ys => Some (Some a :: ys)
      | _, _ => None
      end
  end.

(** [lf.with_columns(date.cast(Date), region.cast(Utf8),
    value.cast(Float64))], collected: the three columns are resolved
    against the schema first, then cast; the frame keeps its columns. *)
Definition with_casts (lf : frame) : error + DataFrame :=
  match lookup "date" lf, lookup "region" lf, lookup "value" lf with
  | None, _, _ => inl (ColumnNotFoundError "date")
  | _, None, _ => inl (ColumnNotFoundError "region")
  | _, _, None => inl (ColumnNotFoundError "value")
  | Some ds, Some gs, Some vs =>
      match cast to_date ds, cast to_utf8 gs, cast to_f64 vs with
      | Some ds', Some gs', Some vs' =>
          inr (mkDataFrame (names lf) (zip3 ds' gs' vs'))
      | _, _, _ => inl InvalidOperationError
      end
  end.

(** [load_data()] followed by [lf.collect()] (lines 31-32).  The frame is
    lazy: nothing of lines 14-29 fails before it is collected. *)
Definition collect_load_data (f : frame) : error + DataFrame :=
  match adapt f with
  | inl e => inl e
  | inr lf => with_casts lf
  end.

(** [{"date", "region", "value"}.issubset(df.columns)] *)
Definition has_required (d : DataFrame) : bool :=
  forallb (fun c => existsb (String.eqb c) (columns d))
          ["date"; "region"; "value"].

(** What the sidebar returns: the regions picked in the multiselect among
    those offered, and the two ends of the slider given its bounds. *)
Record sidebar : Type := mkSidebar {
  select_all : bool;
  multiselect : list (option string) -> list (option string);
  slider : option Date -> option Date -> Date * Date
}.

(** What a finished run displays. *)
Record report : Type := mkReport {
  table : list summary;
  raw_series : list row;
  rolling : list rolling_point
}.

(** The script, top to bottom.  [file] is the content of [data.parquet],
    [None] when the file does not exist. *)
Definition app (og os : Order.t) (ui : sidebar) (file : option frame)
  : outcome report :=
  match file with
  | None => Stopped "data.parquet not found"
  | Some f =>
      match collect_load_data f with
      | inl e => Raised e
      | inr d =>
          if negb (has_required d) then
            Stopped missing_columns_report
          else
            let df := rows d in
            match latest_date df with
            | None => Raised AttributeError
            | Some ld =>
                let ms := summary_table og os df ld in
                let regions := map (fun s => m_region (s_metric s)) ms in
                let sel_regions :=
                  if select_all ui then regions
                  else multiselect ui regions in
                let min_date := Col.min (map date df) in
                let max_date := Col.max (map date df) in
                let (start_date, end_date) := slider ui min_date max_date in
                let s := series sel_regions start_date end_date df in
                Done (mkReport
                        (filter (fun t => is_in (m_region (s_metric t))
                                                sel_regions) ms)
                        s (roll s))
            end
      end
  end.

End Casts.

(** * Vocabulary of the statements *)

(** [m] is the earliest date of [df] among those satisfying [P]. *)
Definition earliest_where (df : list row) (P : Date -> Prop) (m : Date)
  : Prop :=
  In (Some m) (map date df) /\ P m /\
  forall d, In (Some d) (map date df) -> P d -> m <= d.

(** Row [r] of group [g] is dated at or before [c], and no row of [g] dated at
    or before [c] is dated later. *)
Definition latest_obs_upto (c : Date) (g : list row) (r : row) : Prop :=
  In r g /\
  exists d, date r = Some d /\ d <= c /\
    forall r' d', In r' g -> date r' = Some d' -> d' <= c -> d' <= d.

(** Two rows in date order (rows with a null date are not constrained). *)
Definition date_le (r r' : row) : Prop :=
  forall d d', date r = Some d -> date r' = Some d' -> d <= d'.

(** The rows of every region appear in the frame in date order. *)
Definition date_ordered (df : list row) : Prop :=
  forall k, StronglySorted date_le (group_rows df k).

(** Row [a] may stand before row [b] in the sorted table. *)
Definition before (a b : metric) : Prop :=
  valor_geb (Valor a) (Valor b) = true.

(** A float that is not NaN, on its IEEE 754 decomposition. *)
Definition sf_num (a : spec_float) : bool :=
  match a with
  | S754_nan => false
  | _ => true
  end.

(** The fatal conditions of the spec's taxonomy, and the one the script
    reports itself: its [st.error] of line 34 is the schema error; no line of
    the script reports an empty dataset. *)
Inductive fatal : Type := SchemaError | EmptyDatasetError.

Definition reported {A : Type} (o : outcome A) : option fatal :=
  match o with
  | Stopped msg =>
      if String.eqb msg missing_columns_report then Some SchemaError else None
  | _ => None
  end.

(** ** Sample inputs *)

Definition obs (d : Date) (g : string) (v : float) : row :=
  mkRow (Some d) (Some g) (Some v).

(** Three regions in date order; Africa is first observed on 2024-02-20. *)
Definition sample_df : list row :=
  [ obs (ymd 2023 12 29) "Asia" 4;
    obs (ymd 2024 1 2) "Asia" 5;
    obs (ymd 2024 1 2) "Latino" 7;
    obs (ymd 2024 2 20) "Africa" 2.5;
    obs (ymd 2024 3 1) "Asia" 2;
    obs (ymd 2024 3 15) "Asia" 1;
    obs (ymd 2024 3 15) "Africa" 3;
    obs (ymd 2024 3 15) "Latino" 6 ]%float.

(** One region whose later observation is stored first. *)
Definition unordered_df : list row :=
  [ obs (ymd 2024 3 15) "Asia" 5; obs (ymd 2024 1 2) "Asia" 7 ]%float.




(** A file with a date and a region column and no value column. *)
Definition no_value_frame : frame :=
  [ ("date", [Some (CDate (ymd 2024 3 15))]);
    ("region", [Some (CStr "Asia")]) ].

(** A file with the three canonical columns and no row. *)
Definition empty_frame : frame :=
  [ ("date", []); ("region", []); ("value", []) ].

(** The casts of an engine that converts nothing: enough for files whose
    columns already have the canonical types, on which every engine agrees. *)
Definition no_conversion {A : Type} (c : cell) : option A := None.

(** The sidebar left untouched: every region, the whole date range. *)
Definition default_sidebar : sidebar :=
  mkSidebar true (fun regions => regions)
    (fun lo hi => (match lo with Some d => d | None => 0 end,
                   match hi with Some d => d | None => 0 end)).

(** * The display of a completed run *)




(** * Files *)


(** A tidy file holding the rows [df] in the three canonical columns. *)
Definition tidy_file (df : list row) : frame :=
  [ ("date", map (fun r => option_map CDate (date r)) df);
    ("region", map (fun r => option_map CStr (region r)) df);
    ("value", map (fun r => option_map CFloat (value r)) df) ].


(** Two regions matching the reference name, and one that does not. *)
Definition two_latinos_df : list row :=
  [ obs (ymd 2024 3 15) "Latino" 3; obs (ymd 2024 3 15) "Asia" 5;
    obs (ymd 2024 3 15) "LATINO" 9 ]%float.

(** * The cleaning steps of [fetch_data.py] (lines 70-83) *)

Module Fetch.

(** The frame being cleaned: its column names and, row by row, one cell per
    column, in the order of the names. *)
Record table : Type := mkTable {
  header : list string;
  body : list (list (option cell))
}.

(** [["Date"] + [col for col in cols if col != "Date"]] (line 72). *)
Definition new_order (cols : list string) : list string :=
  "Date" :: filter (fun col => negb (String.eqb col "Date")) cols.

(** [str.contains(pat)] for a pattern without regular-expression operators:
    [pat] occurs in [s]. *)
Fixpoint contains (pat s : string) : bool :=
  if String.prefix pat s then true
  else match s with
       | EmptyString => false
       | String _ s' => contains pat s'
       end.

(** [~e] on a nullable boolean. *)
Definition not3 (a : option bool) : option bool := option_map negb a.

Section Clean.

(** The text the engine's cast to [Utf8] gives a cell that is not a string. *)
Variable text : cell -> string.

Definition cell_text (c : cell) : string :=
  match c with
  | CStr s => s
  | _ => text c
  end.

(** [pl.col(col).cast(pl.Utf8).str.contains(pat)] on one cell. *)
Definition str_contains (pat : string) (x : option cell) : option bool :=
  option_map (fun c => contains pat (cell_text c)) x.

(** One entry of [conditions] on one cell (line 78). *)
Definition condition (x : option cell) : option bool :=
  Null.and3 (not3 (str_contains "`" x)) (not3 (str_contains "N/A" x)).

(** [reduce(lambda acc, expr: acc & expr, conditions)] on one row; [reduce]
    raises on an empty list, which is [None]. *)
Definition filter_condition (r : list (option cell))
  : option (option bool) :=
  match map condition r with
  | [] => None
  | c :: cs => Some (fold_left Null.and3 cs c)
  end.

(** [df.filter(filter_condition)] (line 83). *)
Definition filter_rows (t : table) : option table :=
  match header t with
  | [] => None
  | _ :: _ =>
      Some (mkTable (header t)
              (filter (fun r => match filter_condition r with
                                | Some b => Null.holds b
                                | None => false
                                end)
                      (body t)))
  end.

(** A cell that passes line 78: not null, and its text holds neither mark. *)
Definition clean (x : option cell) : Prop :=
  exists c, x = Some c /\
            contains "`" (cell_text c) = false /\
            contains "N/A" (cell_text c) = false.

End Clean.

End Fetch.

(** * Properties *)

(** ** Tactics for concrete frames and float comparisons *)

Ltac tidy_rows :=
  repeat constructor; simpl; discriminate.

Ltac dates_le :=
  let H := fresh in let H' := fresh in
  intros ? ? H H'; injection H as <-; injection H' as <-;
  vm_compute; discriminate.

Ltac frame_sorted :=
  repeat (constructor; [|repeat (constructor; [dates_le|])]); try constructor.

(** Two floats differ when the engine's comparison tells them apart. *)
Ltac floats_differ :=
  let H := fresh in
  intros H; vm_compute in H;
  match type of H with
  | _ = Some ?y =>
      apply (f_equal (fun o => match o with
                               | Some x => PrimFloat.eqb x y
                               | None => false
                               end)) in H
  | _ = ?y => apply (f_equal (fun x => PrimFloat.eqb x y)) in H
  end;
  vm_compute in H; discriminate.

Ltac compare_cases :=
  repeat match goal with
  | H : context [Z.compare ?x ?y] |- _ => destruct (Z.compare_spec x y)
  | |- context [Z.compare ?x ?y] => destruct (Z.compare_spec x y)
  | H : context [Pos.compare ?x ?y] |- _ => destruct (Pos.compare_spec x y)
  | |- context [Pos.compare ?x ?y] => destruct (Pos.compare_spec x y)
  end.

(** ** Column reductions *)

Lemma col_max_spec (xs : list (option Z)) (m : Z) :
  Col.max xs = Some m ->
  In (Some m) xs /\ forall d, In (Some d) xs -> d <= m.
Proof.
  revert m. induction xs as [|[x|] xs IH]; simpl; intros m H.
  - discriminate.
  - destruct (Col.max xs) as [m'|] eqn:E.
    + injection H as <-. destruct (IH m' eq_refl) as [Hin Hle].
      split.
      * destruct (Z.max_spec x m') as [[_ ->]|[_ ->]]; auto.
      * intros d [Hd|Hd]; [injection Hd as ->; lia|].
        specialize (Hle d Hd). lia.
    + injection H as <-. split; [now left|].
      intros d [Hd|Hd]; [injection Hd as ->; lia|].
      exfalso. clear IH. induction xs as [|[y|] xs IH]; simpl in *.
      * exact Hd.
      * destruct (Col.max xs); discriminate.
      * destruct Hd as [Hd|Hd]; [discriminate|auto].
  - destruct (IH m H) as [Hin Hle]. split; [now right|].
    intros d [Hd|Hd]; [discriminate|auto].
Qed.

Lemma col_min_spec (xs : list (option Z)) (m : Z) :
  Col.min xs = Some m ->
  In (Some m) xs /\ forall d, In (Some d) xs -> m <= d.
Proof.
  revert m. induction xs as [|[x|] xs IH]; simpl; intros m H.
  - discriminate.
  - destruct (Col.min xs) as [m'|] eqn:E.
    + injection H as <-. destruct (IH m' eq_refl) as [Hin Hle].
      split.
      * destruct (Z.min_spec x m') as [[_ ->]|[_ ->]]; auto.
      * intros d [Hd|Hd]; [injection Hd as ->; lia|].
        specialize (Hle d Hd). lia.
    + injection H as <-. split; [now left|].
      intros d [Hd|Hd]; [injection Hd as ->; lia|].
      exfalso. clear IH. induction xs as [|[y|] xs IH]; simpl in *.
      * exact Hd.
      * destruct (Col.min xs); discriminate.
      * destruct Hd as [Hd|Hd]; [discriminate|auto].
  - destruct (IH m H) as [Hin Hle]. split; [now right|].
    intros d [Hd|Hd]; [discriminate|auto].
Qed.

Lemma col_max_some (xs : list (option Z)) (d : Z) :
  In (Some d) xs -> exists m, Col.max xs = Some m.
Proof.
  induction xs as [|[x|] xs IH]; simpl; intros H.
  - contradiction.
  - destruct (Col.max xs); eauto.
  - destruct H as [H|H]; [discriminate|auto].
Qed.

Lemma col_min_some (xs : list (option Z)) (d : Z) :
  In (Some d) xs -> exists m, Col.min xs = Some m.
Proof.
  induction xs as [|[x|] xs IH]; simpl; intros H.
  - contradiction.
  - destruct (Col.min xs); eauto.
  - destruct H as [H|H]; [discriminate|auto].
Qed.

(** ** Anchors *)

Lemma min_date_where_spec (df : list row) (p : Date -> option bool)
  (P : Date -> Prop) (d0 : Date) :
  (forall d, p d = Some true <-> P d) ->
  In (Some d0) (map date df) -> P d0 ->
  exists m, min_date_where df p = Some m /\ earliest_where df P m.
Proof.
  intros Hp Hin HP. unfold min_date_where.
  set (q := fun r : row => Null.holds match date r with
                                      | Some d => p d
                                      | None => None
                                      end).
  assert (Hq : forall d, In (Some d) (map date (filter q df)) <->
                         In (Some d) (map date df) /\ P d).
  { intros d. rewrite !in_map_iff. split.
    - intros (r & Hr & Hf). apply filter_In in Hf as [Hf Hqr].
      split; [eauto|]. unfold q in Hqr. rewrite Hr in Hqr.
      apply Hp. destruct (p d) as [[|]|]; simpl in Hqr; congruence.
    - intros [(r & Hr & Hf) HPd]. exists r. split; [assumption|].
      apply filter_In. split; [assumption|]. unfold q. rewrite Hr.
      apply Hp in HPd. now rewrite HPd. }
  destruct (col_min_some (map date (filter q df)) d0) as [m Hm].
  { apply Hq; auto. }
  exists m. split; [assumption|].
  apply col_min_spec in Hm as [Hm1 Hm2].
  apply Hq in Hm1 as [Hm1 HPm]. repeat split; auto.
  intros d Hd HPd. apply Hm2, Hq; auto.
Qed.

Lemma quarter_between (m q : Z) :
  ((3 * q + 1 <=? m) && (m <=? 3 * q + 3))%bool = true <-> (m - 1) / 3 = q.
Proof.
  rewrite andb_true_iff, !Z.leb_le. split.
  - intros [H1 H2]. symmetry. apply (Z.div_unique _ _ q (m - 1 - 3 * q)); lia.
  - intros <-. pose proof (Z.div_mod (m - 1) 3 ltac:(lia)).
    pose proof (Z.mod_pos_bound (m - 1) 3 ltac:(lia)). lia.
Qed.

Lemma tidy_nonempty_latest (df : list row) :
  tidy df -> df <> [] -> exists ld, latest_date df = Some ld.
Proof.
  intros Ht Hne. destruct df as [|r df]; [congruence|].
  apply Forall_inv in Ht. destruct Ht as (Hd & _).
  destruct (date r) as [d|] eqn:E; [|congruence].
  apply (col_max_some _ d). simpl. now left.
Qed.

(** C3. For every non-empty tidy series the latest date is the maximum date,
    the YTD anchor is the minimum date among the rows of the latest date's
    year, the QTD anchor the minimum date among the rows of that year whose
    quarter index (month-1)//3 is the latest date's, the MTD anchor the
    minimum date among the rows of the latest date's year and month, and the
    1M anchor is the latest date minus 30 days, read from no row; for
    2024-03-15 it is 2024-02-14. *)
Theorem anchor_dates (df : list row) :
  tidy df -> df <> [] ->
  exists ld sy sq sm,
    latest_date df = Some ld /\
    In (Some ld) (map date df) /\
    (forall d, In (Some d) (map date df) -> d <= ld) /\
    periods df ld =
      [ ("YTD", Some sy); ("QTD", Some sq); ("MTD", Some sm);
        ("1M", Some (ld - 30)) ] /\
    earliest_where df (fun d => year d = year ld) sy /\
    earliest_where df
      (fun d => year d = year ld /\
                (month d - 1) / 3 = (month ld - 1) / 3) sq /\
    earliest_where df (fun d => year d = year ld /\ month d = month ld) sm /\
    (ld = ymd 2024 3 15 -> month_ago ld = ymd 2024 2 14).
Proof.
  intros Ht Hne. destruct (tidy_nonempty_latest df Ht Hne) as [ld Hld].
  destruct (col_max_spec _ _ Hld) as [Hin Hmax].
  destruct (min_date_where_spec df
              (fun d => Some (year d =? latest_year ld))
              (fun d => year d = year ld) ld) as (sy & Esy & Hsy); auto.
  { intros d. unfold latest_year. split.
    - intros H. injection H as H. now apply Z.eqb_eq.
    - intros ->. now rewrite Z.eqb_refl. }
  destruct (min_date_where_spec df
              (fun d => Null.and3 (Some (year d =? latest_year ld))
                 (Some ((3 * latest_quarter ld + 1 <=? month d)
                        && (month d <=? 3 * latest_quarter ld + 3))%bool))
              (fun d => year d = year ld /\
                        (month d - 1) / 3 = (month ld - 1) / 3) ld)
    as (sq & Esq & Hsq); auto.
  { intros d. unfold latest_year, latest_quarter.
    rewrite <- quarter_between, <- Z.eqb_eq.
    destruct (year d =? year ld), ((_ <=? _) && _)%bool; simpl; split;
      intros H; try discriminate; try tauto; destruct H; discriminate. }
  destruct (min_date_where_spec df
              (fun d => Null.and3 (Some (year d =? latest_year ld))
                                  (Some (month d =? month ld)))
              (fun d => year d = year ld /\ month d = month ld) ld)
    as (sm & Esm & Hsm); auto.
  { intros d. unfold latest_year. rewrite <- !Z.eqb_eq.
    destruct (year d =? year ld), (month d =? month ld); simpl; split;
      intros H; try discriminate; try tauto; destruct H; discriminate. }
  exists ld, sy, sq, sm. repeat split; try assumption.
  - unfold periods, start_year, start_qtr, start_month, month_ago, minus_days.
    now rewrite Esy, Esq, Esm.
  - apply Hsy.
  - apply Hsy.
  - apply Hsy.
  - apply Hsq.
  - apply Hsq.
  - apply Hsq.
  - apply Hsq.
  - apply Hsm.
  - apply Hsm.
  - apply Hsm.
  - apply Hsm.
  - intros ->. reflexivity.
Qed.

(** ** Orders, groups and the rows of [metrics] *)

Lemma insert_at_perm {A : Type} (n : nat) (x : A) (l : list A) :
  Permutation (Order.insert_at n x l) (x :: l).
Proof.
  revert n. induction l as [|y l IH]; intros [|n]; simpl; auto.
  rewrite IH. apply perm_swap.
Qed.

Lemma arrange_perm {A : Type} (o : Order.t) (l : list A) :
  Permutation (Order.arrange o l) l.
Proof.
  revert o. induction l as [|x l IH]; intros o; simpl; auto.
  rewrite insert_at_perm. auto.
Qed.

Lemma arrange_nil {A : Type} (l : list A) : Order.arrange [] l = l.
Proof. induction l as [|x l IH]; simpl; congruence. Qed.

Lemma insert_desc_perm (m : metric) (l : list metric) :
  Permutation (insert_desc m l) (m :: l).
Proof.
  induction l as [|m' l IH]; simpl; auto.
  destruct (valor_geb (Valor m) (Valor m')); auto.
  rewrite IH. apply perm_swap.
Qed.

Lemma sort_desc_perm (os : Order.t) (l : list metric) :
  Permutation (sort_desc os l) l.
Proof.
  unfold sort_desc. rewrite <- (arrange_perm os l) at 2.
  induction (Order.arrange os l) as [|m l' IH]; simpl; auto.
  rewrite insert_desc_perm. auto.
Qed.

Lemma key_eqb_eq (a b : option string) : key_eqb a b = true <-> a = b.
Proof.
  destruct a as [x|], b as [y|]; simpl; try (split; congruence).
  rewrite String.eqb_eq. split; congruence.
Qed.


Lemma in_distinct (ks : list (option string)) (k : option string) :
  In k (distinct ks) <-> In k ks.
Proof.
  induction ks as [|k0 ks IH]; simpl; [tauto|].
  rewrite filter_In, IH. split.
  - intros [H|[H _]]; auto.
  - intros [H|H]; auto.
    destruct (key_eqb k k0) eqn:E.
    + left. symmetry. now apply key_eqb_eq.
    + right. split; auto.
Qed.


(** The rows of [metrics] are the aggregates of the groups, one per region
    of the frame, whatever the two orders. *)
Lemma metrics_perm (og os : Order.t) (df : list row) (ld : Date) :
  Permutation (metrics og os df ld)
    (map (fun k => agg ld (periods df ld) (k, group_rows df k))
         (distinct (map region df))).
Proof.
  unfold metrics, group_by. rewrite sort_desc_perm, arrange_perm.
  now rewrite map_map.
Qed.

Lemma in_metrics (og os : Order.t) (df : list row) (ld : Date) (m : metric) :
  In m (metrics og os df ld) <->
  exists k, In k (map region df) /\
            m = agg ld (periods df ld) (k, group_rows df k).
Proof.
  split.
  - intros H. apply (Permutation_in _ (metrics_perm og os df ld)) in H.
    apply in_map_iff in H as (k & <- & Hk). exists k.
    split; [now apply in_distinct|reflexivity].
  - intros (k & Hk & ->).
    apply (Permutation_in _ (Permutation_sym (metrics_perm og os df ld))).
    apply in_map_iff. exists k. split; [reflexivity|now apply in_distinct].
Qed.


(** What a row of [metrics] holds, in terms of its region's rows. *)
Lemma metric_fields (og os : Order.t) (df : list row) (ld : Date) (m : metric) :
  In m (metrics og os df ld) ->
  let g := group_rows df (m_region m) in
  In (m_region m) (map region df) /\
  Valor m = last_value_upto (Some ld) g /\
  deltas m =
    map (fun p => (fst p, bps (Valor m) (last_value_upto (snd p) g)))
        (periods df ld).
Proof.
  intros H. apply in_metrics in H as (k & Hk & ->). simpl. auto.
Qed.

Lemma in_group_rows (df : list row) (k : option string) (r : row) :
  In r (group_rows df k) <-> In r df /\ region r = k.
Proof. unfold group_rows. now rewrite filter_In, key_eqb_eq. Qed.

(** ** Latest value at or before a cutoff *)

Lemma upto_true (c : option Date) (r : row) :
  upto c r = true <-> exists d cd, date r = Some d /\ c = Some cd /\ d <= cd.
Proof.
  unfold upto. destruct (date r) as [d|], c as [cd|]; simpl;
    try (split; [discriminate|intros (? & ? & ? & ? & ?); discriminate]).
  destruct (d <=? cd) eqn:E; split.
  - intros _. exists d, cd. apply Z.leb_le in E. auto.
  - reflexivity.
  - discriminate.
  - intros (d' & cd' & Hd & Hc & Hle). apply Z.leb_gt in E.
    injection Hd as <-. injection Hc as <-. lia.
Qed.

Lemma col_last_app {A : Type} (xs : list (option A)) (x : option A) :
  Col.last (xs ++ [x]) = x.
Proof.
  induction xs as [|y xs IH]; simpl; [reflexivity|].
  rewrite IH. destruct (xs ++ [x]) eqn:E; [|reflexivity].
  now destruct xs.
Qed.

Lemma StronglySorted_app_last {A : Type} (R : A -> A -> Prop)
  (l : list A) (x : A) :
  StronglySorted R (l ++ [x]) -> Forall (fun y => R y x) l.
Proof.
  induction l as [|y l IH]; simpl; intros H; [constructor|].
  apply StronglySorted_inv in H as [H1 H2]. constructor.
  - rewrite Forall_forall in H2. apply H2, in_or_app. right. now left.
  - auto.
Qed.

Lemma StronglySorted_filter {A : Type} (R : A -> A -> Prop)
  (p : A -> bool) (l : list A) :
  StronglySorted R l -> StronglySorted R (filter p l).
Proof.
  induction 1 as [|x l Hs IH Hx]; simpl; [constructor|].
  destruct (p x); [|assumption]. constructor; [assumption|].
  rewrite Forall_forall in *. intros y Hy. apply filter_In in Hy. now apply Hx.
Qed.

(** On a group in date order, [.filter(date <= c).last()] reads the last of
    the rows dated at or before [c], and that row carries the latest such
    date. *)
Lemma last_value_upto_sorted (c : Date) (g : list row) :
  StronglySorted date_le g ->
  (exists r, In r g /\ upto (Some c) r = true) ->
  exists pre r,
    filter (upto (Some c)) g = pre ++ [r] /\
    latest_obs_upto c g r /\
    last_value_upto (Some c) g = value r.
Proof.
  intros Hs (r0 & Hr0 & Hu0).
  assert (Hne : filter (upto (Some c)) g <> []).
  { intros E. assert (H : In r0 (filter (upto (Some c)) g))
      by (apply filter_In; auto). now rewrite E in H. }
  destruct (exists_last Hne) as (pre & r & E).
  exists pre, r. split; [assumption|]. split.
  - assert (Hr : In r (filter (upto (Some c)) g))
      by (rewrite E; apply in_or_app; right; now left).
    apply filter_In in Hr as [Hr Hu].
    split; [assumption|].
    apply upto_true in Hu as (d & cd & Hd & Hc & Hle). injection Hc as <-.
    exists d. repeat split; try assumption.
    intros r' d' Hr' Hd' Hle'.
    assert (Hf : In r' (filter (upto (Some c)) g)).
    { apply filter_In. split; [assumption|]. apply upto_true. eauto. }
    rewrite E in Hf. apply in_app_or in Hf as [Hf|[<-|[]]].
    + apply (StronglySorted_filter _ (upto (Some c))) in Hs.
      rewrite E in Hs. apply StronglySorted_app_last in Hs.
      rewrite Forall_forall in Hs. now apply (Hs r' Hf).
    + assert (d' = d) by congruence. lia.
  - unfold last_value_upto. fold (upto (Some c)). rewrite E, map_app. simpl.
    apply col_last_app.
Qed.


(** C1, as amended. For every tidy input in which the rows of each region
    appear in date order, and for every region: the current value is the value
    of the last of that region's rows carrying the maximum date at or before
    the latest date; and for each anchor label the anchor value, from which
    the label's delta is computed, is the value of the last of that region's
    rows carrying the maximum date at or before the anchor date, whenever the
    region has a row dated at or before it. *)
Theorem latest_value_on_ordered_rows
  (og os : Order.t) (df : list row) (ld : Date) (m : metric) :
  tidy df -> date_ordered df ->
  latest_date df = Some ld ->
  In m (metrics og os df ld) ->
  let g := group_rows df (m_region m) in
  (exists pre r, filter (upto (Some ld)) g = pre ++ [r] /\
                 latest_obs_upto ld g r /\ Valor m = value r) /\
  forall label c, In (label, Some c) (periods df ld) ->
    In (label, bps (Valor m) (last_value_upto (Some c) g)) (deltas m) /\
    ((exists r, In r g /\ upto (Some c) r = true) ->
     exists pre r, filter (upto (Some c)) g = pre ++ [r] /\
                   latest_obs_upto c g r /\
                   last_value_upto (Some c) g = value r).
Proof.
  intros Ht Ho Hld Hm g.
  destruct (metric_fields og os df ld m Hm) as (Hk & Hv & Hd). fold g in Hv, Hd.
  split.
  - rewrite Hv. apply last_value_upto_sorted; [apply Ho|].
    apply in_map_iff in Hk as (r & Hr & Hin). exists r. split.
    + apply in_group_rows. auto.
    + unfold tidy in Ht. rewrite Forall_forall in Ht.
      destruct (Ht r Hin) as (Hdate & _).
      destruct (date r) as [d|] eqn:E; [|congruence].
      apply upto_true. exists d, ld. repeat split; auto.
      apply (proj2 (col_max_spec _ _ Hld) d).
      apply in_map_iff. exists r. auto.
  - intros label c Hin. split.
    + rewrite Hd. apply in_map_iff. exists (label, Some c). auto.
    + apply last_value_upto_sorted, Ho.
Qed.

Lemma sorted_frame_date_ordered (df : list row) :
  StronglySorted date_le df -> date_ordered df.
Proof. intros H k. now apply StronglySorted_filter. Qed.

Lemma sample_df_tidy : tidy sample_df.
Proof. tidy_rows. Qed.

Lemma sample_df_ordered : date_ordered sample_df.
Proof. apply sorted_frame_date_ordered. unfold sample_df. frame_sorted. Qed.

Lemma anchor_dates_witness :
  exists ld sy sq sm,
    latest_date sample_df = Some ld /\
    In (Some ld) (map date sample_df) /\
    (forall d, In (Some d) (map date sample_df) -> d <= ld) /\
    periods sample_df ld =
      [ ("YTD", Some sy); ("QTD", Some sq); ("MTD", Some sm);
        ("1M", Some (ld - 30)) ] /\
    earliest_where sample_df (fun d => year d = year ld) sy /\
    earliest_where sample_df
      (fun d => year d = year ld /\
                (month d - 1) / 3 = (month ld - 1) / 3) sq /\
    earliest_where sample_df
      (fun d => year d = year ld /\ month d = month ld) sm /\
    (ld = ymd 2024 3 15 -> month_ago ld = ymd 2024 2 14).
Proof.
  apply (anchor_dates sample_df).
  - repeat constructor; simpl; discriminate.
  - discriminate.
Defined.

Lemma latest_value_on_ordered_rows_witness :
  let ld := ymd 2024 3 15 in
  let m := agg ld (periods sample_df ld)
               (Some "Asia", group_rows sample_df (Some "Asia")) in
  let g := group_rows sample_df (m_region m) in
  exists pre r, filter (upto (Some ld)) g = pre ++ [r] /\
                latest_obs_upto ld g r /\ Valor m = value r.
Proof.
  intros ld m g.
  refine (proj1 (latest_value_on_ordered_rows [] [] sample_df ld m _ _ _ _)).
  - repeat constructor; simpl; discriminate.
  - intros k. apply StronglySorted_filter. unfold sample_df. frame_sorted.
  - reflexivity.
  - apply in_metrics. exists (Some "Asia"). split; [simpl; auto|reflexivity].
Defined.

(** C1, as stated, fails when a region's rows are not in date order: the
    current value of Asia in [unordered_df] is 7, the value stored last, while
    its observation with the maximum date (2024-03-15) has value 5. *)
Lemma current_value_follows_row_order :
  tidy unordered_df /\
  latest_date unordered_df = Some (ymd 2024 3 15) /\
  exists m r,
    In m (metrics [] [] unordered_df (ymd 2024 3 15)) /\
    latest_obs_upto (ymd 2024 3 15)
      (group_rows unordered_df (m_region m)) r /\
    Valor m = Some 7%float /\ value r = Some 5%float /\
    Valor m <> value r.
Proof.
  split; [tidy_rows|]. split; [reflexivity|].
  eexists. exists (obs (ymd 2024 3 15) "Asia" 5%float). split; [now left|].
  split; [|split; [reflexivity|split; [reflexivity|simpl; floats_differ]]].
  split; [now left|]. exists (ymd 2024 3 15).
  split; [reflexivity|]. split; [vm_compute; discriminate|].
  intros r' d' Hr' Hd' Hle. exact Hle.
Qed.

(** ** Schema adaptation and the ways a run ends *)

Lemma has_lookup (c : string) (f : frame) :
  has c f = true <-> exists xs, lookup c f = Some xs.
Proof.
  unfold has, names. induction f as [|[n xs] f IH]; simpl.
  - split; [discriminate|intros [? ?]; discriminate].
  - rewrite String.eqb_sym. destruct (String.eqb n c); simpl.
    + split; eauto.
    + exact IH.
Qed.

Lemma has_false_lookup (c : string) (f : frame) :
  has c f = false <-> lookup c f = None.
Proof.
  destruct (has c f) eqn:E.
  - apply has_lookup in E as [xs E]. rewrite E. split; discriminate.
  - destruct (lookup c f) eqn:L; [|tauto].
    assert (has c f = true) by (apply has_lookup; eauto). congruence.
Qed.

Lemma has_rename_other (c old new : string) (f : frame) :
  c <> old -> c <> new -> has c (rename old new f) = has c f.
Proof.
  intros Ho Hn. unfold has, names, rename. rewrite map_map.
  induction f as [|[n xs] f IH]; simpl; [reflexivity|].
  rewrite IH. f_equal. destruct (String.eqb n old) eqn:E; simpl.
  - apply String.eqb_eq in E. subst n.
    apply String.eqb_neq in Ho, Hn. simpl. now rewrite Ho, Hn.
  - reflexivity.
Qed.

Lemma has_rename_new (old new : string) (f : frame) :
  has old f = true -> has new (rename old new f) = true.
Proof.
  unfold has, names, rename. rewrite map_map.
  induction f as [|[n xs] f IH]; simpl; [discriminate|].
  rewrite String.eqb_sym. destruct (String.eqb n old); simpl.
  - now rewrite String.eqb_refl.
  - intros H. rewrite (IH H). apply orb_true_r.
Qed.

Lemma has_renamed_other (c : string) (f : frame) :
  c <> "Date" -> c <> "date" -> has c (renamed f) = has c f.
Proof.
  intros H1 H2. unfold renamed.
  destruct (has "Date" f && negb (has "date" f))%bool; [|reflexivity].
  now apply has_rename_other.
Qed.

Lemma has_renamed_date (f : frame) :
  (has "date" f || has "Date" f)%bool = true -> has "date" (renamed f) = true.
Proof.
  unfold renamed. destruct (has "date" f) eqn:Ed; simpl.
  - now rewrite andb_false_r.
  - intros H. rewrite H. simpl. now apply has_rename_new.
Qed.

Section Runs.

Variable as_date : cell -> option Date.
Variable as_utf8 : cell -> option string.
Variable as_f64 : cell -> option float.

Local Abbreviation with_casts' := (with_casts as_date as_utf8 as_f64).
Local Abbreviation collect' := (collect_load_data as_date as_utf8 as_f64).
Local Abbreviation app' := (app as_date as_utf8 as_f64).

(** A frame that went through the casts has the three canonical columns. *)
Lemma with_casts_has_required (lf : frame) (d : DataFrame) :
  with_casts' lf = inr d -> has_required d = true.
Proof.
  unfold with_casts.
  destruct (lookup "date" lf) as [ds|] eqn:Ed; [|discriminate].
  destruct (lookup "region" lf) as [gs|] eqn:Eg; [|discriminate].
  destruct (lookup "value" lf) as [vs|] eqn:Ev; [|discriminate].
  destruct (cast _ ds) as [ds'|]; [|discriminate].
  destruct (cast _ gs) as [gs'|]; [|discriminate].
  destruct (cast _ vs) as [vs'|]; [|discriminate].
  intros H. injection H as <-.
  assert (Hd : has "date" lf = true) by (apply has_lookup; eauto).
  assert (Hg : has "region" lf = true) by (apply has_lookup; eauto).
  assert (Hv : has "value" lf = true) by (apply has_lookup; eauto).
  unfold has in Hd, Hg, Hv. unfold has_required. cbn [columns forallb].
  now rewrite Hd, Hg, Hv.
Qed.

Lemma collect_has_required (f : frame) (d : DataFrame) :
  collect' f = inr d -> has_required d = true.
Proof.
  unfold collect_load_data. destruct (adapt f) as [e|lf]; [discriminate|].
  apply with_casts_has_required.
Qed.

(** A missing canonical column is reported by the engine when the frame is
    collected. *)
Lemma with_casts_missing (lf : frame) :
  has "date" lf = true ->
  has "region" lf <> has "value" lf ->
  with_casts' lf =
    inl (ColumnNotFoundError (if has "region" lf then "value" else "region")).
Proof.
  intros Hd Hx. unfold with_casts.
  apply has_lookup in Hd as [ds ->].
  destruct (has "region" lf) eqn:Eg, (has "value" lf) eqn:Ev; try congruence.
  - apply has_lookup in Eg as [gs ->]. apply has_false_lookup in Ev as ->.
    reflexivity.
  - apply has_false_lookup in Eg as ->. reflexivity.
Qed.

(** How a run on an existing file ends. *)
Lemma app_cases (og os : Order.t) (ui : sidebar) (f : frame) :
  match collect' f with
  | inl e => app' og os ui (Some f) = Raised e
  | inr d =>
      match latest_date (rows d) with
      | None => app' og os ui (Some f) = Raised AttributeError
      | Some ld =>
          exists rep, app' og os ui (Some f) = Done rep /\
            forall t, In t (table rep) ->
                      In t (summary_table og os (rows d) ld)
      end
  end.
Proof.
  unfold app.
  destruct (collect' f) as [e|d] eqn:E; [reflexivity|].
  rewrite (collect_has_required f d E). simpl.
  destruct (latest_date (rows d)) as [ld|]; [|reflexivity].
  destruct (slider ui _ _) as [start_date end_date].
  eexists. split; [reflexivity|]. simpl. intros t Ht.
  now apply filter_In in Ht.
Qed.

End Runs.


Section Verdicts.

Variable as_date : cell -> option Date.
Variable as_utf8 : cell -> option string.
Variable as_f64 : cell -> option float.

Local Abbreviation collect' := (collect_load_data as_date as_utf8 as_f64).
Local Abbreviation app' := (app as_date as_utf8 as_f64).


(** C8. A frame that is collected has the three canonical columns, so the
    script's report of missing columns is never reached: whatever the file, no
    run ends with it.  On a file with a date and a region column and no value
    column the run ends with the engine's [ColumnNotFoundError] raised by
    [lf.collect()]. *)
Theorem missing_columns_report_unreachable
  (og os : Order.t) (ui : sidebar) :
  (forall f d, collect' f = inr d -> has_required d = true) /\
  (forall file, reported (app' og os ui file) <> Some SchemaError) /\
  app' og os ui (Some no_value_frame) = Raised (ColumnNotFoundError "value").
Proof.
  split; [|split].
  - apply collect_has_required.
  - intros [f|]; [|discriminate].
    pose proof (app_cases as_date as_utf8 as_f64 og os ui f) as H.
    destruct (collect' f) as [e|d]; [rewrite H; discriminate|].
    destruct (latest_date (rows d)); [|rewrite H; discriminate].
    destruct H as (rep & -> & _). discriminate.
  - reflexivity.
Qed.

(** C9, as amended. If the dataset has no rows after load, the run fails
    fatally with the [AttributeError] raised when the year of the null latest
    date is read. *)
Theorem empty_dataset_raises
  (og os : Order.t) (ui : sidebar) (f : frame) (d : DataFrame) :
  collect' f = inr d -> rows d = [] ->
  app' og os ui (Some f) = Raised AttributeError.
Proof.
  intros Hc Hr.
  pose proof (app_cases as_date as_utf8 as_f64 og os ui f) as H.
  rewrite Hc in H. unfold latest_date in H. rewrite Hr in H. exact H.
Qed.

(** C10. A file with a date column and exactly one of the region and value
    columns is not reshaped: the casts are planned on the file as scanned
    (after the renaming of [Date]).  The run then ends when the frame is
    collected, with the engine's [ColumnNotFoundError] for the absent column,
    and not with the script's report of missing columns. *)
Theorem one_of_region_value_not_reshaped
  (og os : Order.t) (ui : sidebar) (f : frame) :
  (has "date" f || has "Date" f)%bool = true ->
  has "region" f <> has "value" f ->
  adapt f = inr (renamed f) /\
  app' og os ui (Some f) =
    Raised (ColumnNotFoundError
              (if has "region" f then "value" else "region")) /\
  reported (app' og os ui (Some f)) <> Some SchemaError.
Proof.
  intros Hd Hx.
  assert (Hg : has "region" (renamed f) = has "region" f)
    by (apply has_renamed_other; discriminate).
  assert (Hv : has "value" (renamed f) = has "value" f)
    by (apply has_renamed_other; discriminate).
  assert (Ha : adapt f = inr (renamed f)).
  { unfold adapt. fold (renamed f). rewrite Hg, Hv.
    destruct (has "region" f), (has "value" f); simpl; congruence. }
  assert (Hr : app' og os ui (Some f) =
    Raised (ColumnNotFoundError
              (if has "region" f then "value" else "region"))).
  { pose proof (app_cases as_date as_utf8 as_f64 og os ui f) as H.
    unfold collect_load_data in H. rewrite Ha in H.
    rewrite (with_casts_missing as_date as_utf8 as_f64 (renamed f)) in H.
    - now rewrite Hg in H.
    - now apply has_renamed_date.
    - now rewrite Hg, Hv. }
  split; [assumption|]. split; [assumption|]. rewrite Hr. discriminate.
Qed.

End Verdicts.


Lemma empty_dataset_raises_witness :
  app no_conversion no_conversion no_conversion [] [] default_sidebar
      (Some empty_frame) = Raised AttributeError.
Proof.
  apply (empty_dataset_raises no_conversion no_conversion no_conversion
           [] [] default_sidebar empty_frame
           (mkDataFrame ["date"; "region"; "value"] [])); reflexivity.
Defined.

(** C9, as stated, fails on a file with the three columns and no row: the run
    ends with an [AttributeError], and reports no empty dataset. *)
Lemma empty_dataset_not_reported :
  app no_conversion no_conversion no_conversion [] [] default_sidebar
      (Some empty_frame) = Raised AttributeError /\
  reported (app no_conversion no_conversion no_conversion [] []
                default_sidebar (Some empty_frame))
    <> Some EmptyDatasetError.
Proof. split; [reflexivity|discriminate]. Qed.

Lemma one_of_region_value_not_reshaped_witness :
  adapt no_value_frame = inr (renamed no_value_frame) /\
  app no_conversion no_conversion no_conversion [] [] default_sidebar
      (Some no_value_frame) = Raised (ColumnNotFoundError "value") /\
  reported (app no_conversion no_conversion no_conversion [] []
                default_sidebar (Some no_value_frame)) <> Some SchemaError.
Proof.
  apply (one_of_region_value_not_reshaped
           no_conversion no_conversion no_conversion
           [] [] default_sidebar no_value_frame).
  - reflexivity.
  - discriminate.
Defined.

(** ** Rolling mean *)










(** ** Spread against the reference region *)

(** A finite float is a zero or a signed mantissa and exponent. *)
Lemma finite_spec (x : float) :
  F64.finite x = true ->
  match Prim2SF x with
  | S754_zero _ | S754_finite _ _ _ => True
  | _ => False
  end.
Proof.
  unfold F64.finite, is_finite, is_nan, is_infinity.
  rewrite !eqb_spec, abs_spec.
  destruct (Prim2SF x) as [s|s| |s m e]; simpl; auto.
  - now destruct s.
  - discriminate.
Qed.

Lemma sub_self (x : float) : F64.finite x = true -> (x - x)%float = 0%float.
Proof.
  intros H. apply finite_spec in H. apply Prim2SF_inj. rewrite sub_spec.
  destruct (Prim2SF x) as [s|s| |s m e]; try contradiction.
  - now destruct s.
  - cbv [SF64sub SFsub]. rewrite Z.sub_diag. reflexivity.
Qed.

Lemma bps_self (v : float) :
  F64.finite v = true -> bps (Some v) (Some v) = Some 0%float.
Proof. intros H. unfold bps. simpl. now rewrite (sub_self v H). Qed.

Lemma filter_all {A : Type} (p : A -> bool) (l : list A) :
  (forall x, In x l -> p x = true) -> filter p l = l.
Proof.
  induction l as [|x l IH]; simpl; intros H; [reflexivity|].
  rewrite (H x (or_introl eq_refl)), IH; auto.
Qed.

(** On a tidy frame every region has a current value. *)
Lemma valor_present (og os : Order.t) (df : list row) (ld : Date) (m : metric) :
  tidy df -> latest_date df = Some ld ->
  In m (metrics og os df ld) -> exists v, Valor m = Some v.
Proof.
  intros Ht Hld Hm. unfold tidy in Ht. rewrite Forall_forall in Ht.
  destruct (metric_fields og os df ld m Hm) as (Hk & Hv & _).
  set (g := group_rows df (m_region m)) in *.
  assert (Hall : filter (upto (Some ld)) g = g).
  { apply filter_all. intros r Hr. apply in_group_rows in Hr as [Hr _].
    destruct (Ht r Hr) as (Hd & _).
    destruct (date r) as [d|] eqn:E; [|congruence].
    apply upto_true. exists d, ld. repeat split; auto.
    apply (proj2 (col_max_spec _ _ Hld) d).
    apply in_map_iff. exists r. auto. }
  assert (Hne : g <> []).
  { apply in_map_iff in Hk as (r & Hr & Hin).
    assert (In r g) by (apply in_group_rows; auto).
    intros E. now rewrite E in *. }
  destruct (exists_last Hne) as (pre & r & E).
  assert (Hr : In r df).
  { assert (In r g) by (rewrite E; apply in_or_app; right; now left).
    now apply in_group_rows in H. }
  destruct (Ht r Hr) as (_ & _ & Hval).
  destruct (value r) as [v|] eqn:Ev; [|congruence].
  exists v. rewrite Hv. unfold last_value_upto. fold (upto (Some ld)).
  rewrite Hall, E, map_app. simpl. now rewrite col_last_app.
Qed.

Lemma all_some {A B : Type} (f : A -> option B) (l : list A) :
  (forall x, In x l -> exists y, f x = Some y) ->
  exists ys, map f l = map Some ys.
Proof.
  induction l as [|x l IH]; intros H.
  - now exists [].
  - destruct (H x (or_introl eq_refl)) as [y Hy].
    destruct IH as [ys Hys]; [intros; apply H; now right|].
    exists (y :: ys). simpl. now rewrite Hy, Hys.
Qed.

Lemma col_mean_present (vs : list float) :
  vs <> [] -> col_mean (map Some vs) = Some (F64.mean vs).
Proof.
  intros H. unfold col_mean.
  replace (flat_map _ (map Some vs)) with vs.
  - now destruct vs.
  - clear H. induction vs as [|v vs IH]; simpl; congruence.
Qed.








(** ** The order of the sort *)

Lemma SFeqb_self (a : spec_float) : SFeqb a a = sf_num a.
Proof.
  destruct a as [s|s| |s m e]; try (destruct s); try reflexivity;
    unfold SFeqb, SFcompare; rewrite Z.compare_refl;
    change (Pos.compare_cont Eq m m) with (Pos.compare m m);
    now rewrite Pos.compare_refl.
Qed.

Lemma SFleb_total (a b : spec_float) :
  sf_num a = true -> sf_num b = true -> SFleb b a = false -> SFleb a b = true.
Proof.
  unfold SFleb, SFcompare.
  destruct a as [sa|sa| |sa ma ea], b as [sb|sb| |sb mb eb];
    try discriminate; intros _ _;
    try destruct sa; try destruct sb; try reflexivity; try discriminate;
    change (Pos.compare_cont Eq) with Pos.compare;
    compare_cases; simpl; try reflexivity; try discriminate; try lia.
Qed.

Lemma SFleb_trans (a b c : spec_float) :
  SFleb a b = true -> SFleb b c = true -> SFleb a c = true.
Proof.
  unfold SFleb, SFcompare.
  destruct a as [sa|sa| |sa ma ea], b as [sb|sb| |sb mb eb],
           c as [sc|sc| |sc mc ec];
    try discriminate;
    try destruct sa; try destruct sb; try destruct sc;
    try reflexivity; try discriminate;
    change (Pos.compare_cont Eq) with Pos.compare;
    compare_cases; simpl; try reflexivity; try discriminate; try lia.
Qed.

Lemma is_nan_spec (x : float) : is_nan x = negb (sf_num (Prim2SF x)).
Proof. unfold is_nan. now rewrite eqb_spec, SFeqb_self. Qed.

Lemma geb_total (x y : float) : F64.geb x y = false -> F64.geb y x = true.
Proof.
  unfold F64.geb. rewrite !is_nan_spec, !leb_spec.
  destruct (sf_num (Prim2SF x)) eqn:Ex, (sf_num (Prim2SF y)) eqn:Ey; simpl;
    try discriminate; try reflexivity.
  now apply SFleb_total.
Qed.

Lemma geb_trans (x y z : float) :
  F64.geb x y = true -> F64.geb y z = true -> F64.geb x z = true.
Proof.
  unfold F64.geb. rewrite !is_nan_spec, !leb_spec.
  destruct (sf_num (Prim2SF x)), (sf_num (Prim2SF y)),
    (sf_num (Prim2SF z)); simpl; try discriminate; try reflexivity.
  intros H1 H2. exact (SFleb_trans _ _ _ H2 H1).
Qed.

Lemma before_total (a b : metric) : ~ before a b -> before b a.
Proof.
  unfold before. destruct (Valor a) as [x|], (Valor b) as [y|]; simpl;
    try congruence.
  intros H. apply geb_total. now destruct (F64.geb x y).
Qed.

Lemma before_trans (a b c : metric) : before a b -> before b c -> before a c.
Proof.
  unfold before. destruct (Valor a) as [x|], (Valor b) as [y|],
    (Valor c) as [z|]; simpl; try congruence.
  apply geb_trans.
Qed.

Lemma insert_desc_sorted (m : metric) (l : list metric) :
  StronglySorted before l -> StronglySorted before (insert_desc m l).
Proof.
  induction 1 as [|m' l Hs IH Hm']; simpl.
  - repeat constructor.
  - destruct (valor_geb (Valor m) (Valor m')) eqn:E.
    + constructor; [now constructor|]. constructor; [exact E|].
      rewrite Forall_forall in *. intros x Hx.
      apply (before_trans m m' x); [exact E|auto].
    + constructor; [assumption|].
      rewrite Forall_forall in *. intros x Hx.
      apply (Permutation_in _ (insert_desc_perm m l)) in Hx.
      destruct Hx as [<-|Hx]; [|auto].
      apply before_total. unfold before. congruence.
Qed.

Lemma sort_desc_sorted (os : Order.t) (l : list metric) :
  StronglySorted before (sort_desc os l).
Proof.
  unfold sort_desc. induction (Order.arrange os l) as [|m l' IH]; simpl.
  - constructor.
  - now apply insert_desc_sorted.
Qed.







(** ** The orders cover what the engine may do *)

Lemma insert_at_length {A : Type} (l1 l2 : list A) (x : A) :
  Order.insert_at (List.length l1) x (l1 ++ l2) = l1 ++ x :: l2.
Proof.
  induction l1 as [|y l1 IH]; simpl.
  - now destruct l2.
  - now rewrite IH.
Qed.

(** Every arrangement of a list is the one some order makes of it. *)
Lemma arrange_complete {A : Type} (l l' : list A) :
  Permutation l l' -> exists o, Order.arrange o l = l'.
Proof.
  revert l'. induction l as [|x l IH]; intros l' Hp.
  - apply Permutation_nil in Hp. subst. now exists [].
  - assert (Hin : In x l') by (apply (Permutation_in _ Hp); now left).
    apply in_split in Hin as (l1 & l2 & ->).
    apply Permutation_cons_app_inv in Hp.
    destruct (IH _ Hp) as [o Ho].
    exists (List.length l1 :: o). simpl. rewrite Ho.
    apply insert_at_length.
Qed.

Lemma sort_of_sorted (l : list metric) :
  StronglySorted before l -> fold_right insert_desc [] l = l.
Proof.
  induction 1 as [|m l Hs IH Hm]; simpl; [reflexivity|].
  rewrite IH. destruct l as [|m' l]; simpl; [reflexivity|].
  apply Forall_inv in Hm. unfold before in Hm. now rewrite Hm.
Qed.

(** Every sorted arrangement of the rows is the outcome of the sort under
    some order of the ties. *)
Lemma sort_desc_complete (l l' : list metric) :
  Permutation l l' -> StronglySorted before l' ->
  exists os, sort_desc os l = l'.
Proof.
  intros Hp Hs. destruct (arrange_complete l l' Hp) as [os Hos].
  exists os. unfold sort_desc. rewrite Hos. now apply sort_of_sorted.
Qed.

(** ** Calendar checks *)

Example civil_epoch : civil 0 = (1970, 1, 1).
Proof. reflexivity. Qed.

Example civil_leap_day : civil (ymd 2024 2 29) = (2024, 2, 29).
Proof. reflexivity. Qed.

Example civil_before_epoch :
  civil (ymd 1969 12 31) = (1969, 12, 31) /\ ymd 1969 12 31 = -1.
Proof. split; reflexivity. Qed.

Example civil_century : civil (ymd 1900 3 1 - 1) = (1900, 2, 28).
Proof. reflexivity. Qed.

(** * Further properties of the script *)

(** ** The displayed table and series *)






Section Display.

Variable as_date : cell -> option Date.
Variable as_utf8 : cell -> option string.
Variable as_f64 : cell -> option float.

Local Abbreviation collect' := (collect_load_data as_date as_utf8 as_f64).
Local Abbreviation app' := (app as_date as_utf8 as_f64).




End Display.




(** ** Loading a file *)



Lemma cast_same {A : Type} (conv : cell -> option A) (inj : A -> cell)
  (xs : list (option A)) :
  (forall a, conv (inj a) = Some a) ->
  cast conv (map (option_map inj) xs) = Some xs.
Proof.
  intros H. induction xs as [|[a|] xs IH]; simpl.
  - reflexivity.
  - now rewrite H, IH.
  - now rewrite IH.
Qed.



Lemma zip3_rows (df : list row) :
  zip3 (map date df) (map region df) (map value df) = df.
Proof.
  induction df as [|[d g v] df IH]; simpl; [reflexivity|]. now rewrite IH.
Qed.






Section Loading.

Variable as_date : cell -> option Date.
Variable as_utf8 : cell -> option string.
Variable as_f64 : cell -> option float.

Local Abbreviation collect' := (collect_load_data as_date as_utf8 as_f64).
Local Abbreviation app' := (app as_date as_utf8 as_f64).


(** X5. A tidy file round-trips: a file holding rows in the three canonical
    columns with their canonical types, followed by any other columns, loads
    as exactly those rows, and the frame keeps all the columns. *)
Theorem tidy_file_loads (df : list row) (extra : frame) :
  collect' (tidy_file df ++ extra) =
    inr (mkDataFrame (["date"; "region"; "value"] ++ names extra) df).
Proof.
  unfold collect_load_data, adapt, renamed, tidy_file.
  cbn [List.app has names map fst existsb String.eqb Ascii.eqb Bool.eqb
       orb andb negb].
  rewrite andb_false_r. cbn [negb andb].
  replace (has "region" _) with true by reflexivity.
  cbn [negb andb]. unfold with_casts.
  cbn [List.app lookup String.eqb Ascii.eqb Bool.eqb].
  rewrite <- (map_map date (option_map CDate)),
          <- (map_map region (option_map CStr)),
          <- (map_map value (option_map CFloat)).
  rewrite (cast_same (to_date as_date) CDate) by reflexivity.
  rewrite (cast_same (to_utf8 as_utf8) CStr) by reflexivity.
  rewrite (cast_same (to_f64 as_f64) CFloat) by reflexivity.
  now rewrite zip3_rows.
Qed.

(** X6. A file with neither a [date] nor a [Date] column never loads, be it
    wide or tidy: the run ends with the engine's [ColumnNotFoundError] for
    [date]. *)
Theorem file_without_date_raises
  (og os : Order.t) (ui : sidebar) (f : frame) :
  has "date" f = false -> has "Date" f = false ->
  app' og os ui (Some f) = Raised (ColumnNotFoundError "date").
Proof.
  intros Hd HD.
  assert (Hc : collect' f = inl (ColumnNotFoundError "date")).
  { unfold collect_load_data, adapt, renamed. rewrite HD. cbn [andb].
    apply has_false_lookup in Hd.
    destruct (negb (has "region" f) && negb (has "value" f))%bool.
    - unfold unpivot. now rewrite Hd.
    - unfold with_casts. now rewrite Hd. }
  unfold app. now rewrite Hc.
Qed.

End Loading.


Lemma file_without_date_raises_witness :
  app no_conversion no_conversion no_conversion [] [] default_sidebar
      (Some [ ("Asia", [Some (CFloat 1)]); ("Africa", [Some (CFloat 2)]) ])
    = Raised (ColumnNotFoundError "date").
Proof.
  apply (file_without_date_raises no_conversion no_conversion no_conversion);
    reflexivity.
Defined.

(** ** The calendar

    The year, month and day read off a day count name a valid month and day,
    and name that day count and no other. *)

Lemma civil_inverse (z : Date) :
  ymd (year z) (month z) (day z) = z /\
  1 <= month z <= 12 /\ 1 <= day z <= 31.
Proof.
  unfold year, month, day, civil. cbn [fst snd].
  set (era := (z + 719468) / 146097).
  set (doe := z + 719468 - era * 146097).
  assert (Hdoe : 0 <= doe < 146097).
  { subst doe era. Z.to_euclidean_division_equations. lia. }
  set (yoe := (doe - doe / 1460 + doe / 36524 - doe / 146096) / 365).
  set (doy := doe - (365 * yoe + yoe / 4 - yoe / 100)).
  assert (Hy : 0 <= yoe <= 399 /\ 0 <= doy <= 365).
  { subst doy yoe. Z.to_euclidean_division_equations. lia. }
  assert (Hdoy : doe = yoe * 365 + yoe / 4 - yoe / 100 + doy)
    by (subst doy; lia).
  set (mp := (5 * doy + 2) / 153).
  assert (Hmp : 0 <= mp <= 11).
  { subst mp. Z.to_euclidean_division_equations. lia. }
  set (dd := doy - (153 * mp + 2) / 5 + 1).
  assert (Hdd : 1 <= dd <= 31).
  { subst dd mp. Z.to_euclidean_division_equations. lia. }
  assert (Hback : (153 * mp + 2) / 5 + dd - 1 = doy) by (subst dd; lia).
  assert (Hz : z = era * 146097 + doe - 719468) by (subst doe; lia).
  assert (Hera : (yoe + era * 400) / 400 = era).
  { symmetry. apply (Z.div_unique _ _ era yoe); lia. }
  clearbody era doe yoe doy mp dd.
  unfold ymd.
  destruct (Z.ltb_spec mp 10) as [Hlt|Hge].
  - assert (E1 : (mp + 3 <=? 2) = false) by (apply Z.leb_gt; lia).
    assert (E2 : (2 <? mp + 3) = true) by (apply Z.ltb_lt; lia).
    rewrite E1, E2.
    replace (mp + 3 - 3) with mp by lia.
    replace (yoe + era * 400 + 0) with (yoe + era * 400) by lia.
    rewrite Hera, Hback.
    replace (yoe + era * 400 - era * 400) with yoe by lia.
    split; lia.
  - assert (E1 : (mp - 9 <=? 2) = true) by (apply Z.leb_le; lia).
    assert (E2 : (2 <? mp - 9) = false) by (apply Z.ltb_ge; lia).
    rewrite E1, E2.
    replace (mp - 9 + 9) with mp by lia.
    replace (yoe + era * 400 + 1 - 1) with (yoe + era * 400) by lia.
    rewrite Hera, Hback.
    replace (yoe + era * 400 - era * 400) with yoe by lia.
    split; lia.
Qed.

(** Two days of one month are at most 30 days apart. *)
Lemma same_month_within_30 (a b : Date) :
  year a = year b -> month a = month b -> a - b <= 30.
Proof.
  intros Hy Hm.
  destruct (civil_inverse a) as (Ea & _ & Ha),
    (civil_inverse b) as (Eb & _ & Hb).
  rewrite <- Ea, <- Eb at 1. rewrite Hy, Hm. unfold ymd. lia.
Qed.

(** ** Anchors, deltas and spreads *)

Lemma anchors_exist (df : list row) (ld : Date) :
  latest_date df = Some ld ->
  exists sy sq sm,
    start_year df ld = Some sy /\
    start_qtr df ld = Some sq /\
    start_month df ld = Some sm /\
    earliest_where df (fun d => year d = year ld) sy /\
    earliest_where df
      (fun d => year d = year ld /\
                (month d - 1) / 3 = (month ld - 1) / 3) sq /\
    earliest_where df (fun d => year d = year ld /\ month d = month ld) sm.
Proof.
  intros Hld. destruct (col_max_spec _ _ Hld) as [Hin _].
  destruct (min_date_where_spec df
              (fun d => Some (year d =? latest_year ld))
              (fun d => year d = year ld) ld) as (sy & Esy & Hsy); auto.
  { intros d. unfold latest_year. split.
    - intros H. injection H as H. now apply Z.eqb_eq.
    - intros ->. now rewrite Z.eqb_refl. }
  destruct (min_date_where_spec df
              (fun d => Null.and3 (Some (year d =? latest_year ld))
                 (Some ((3 * latest_quarter ld + 1 <=? month d)
                        && (month d <=? 3 * latest_quarter ld + 3))%bool))
              (fun d => year d = year ld /\
                        (month d - 1) / 3 = (month ld - 1) / 3) ld)
    as (sq & Esq & Hsq); auto.
  { intros d. unfold latest_year, latest_quarter.
    rewrite <- quarter_between, <- Z.eqb_eq.
    destruct (year d =? year ld), ((_ <=? _) && _)%bool; simpl; split;
      intros H; try discriminate; try tauto; destruct H; discriminate. }
  destruct (min_date_where_spec df
              (fun d => Null.and3 (Some (year d =? latest_year ld))
                                  (Some (month d =? month ld)))
              (fun d => year d = year ld /\ month d = month ld) ld)
    as (sm & Esm & Hsm); auto.
  { intros d. unfold latest_year. rewrite <- !Z.eqb_eq.
    destruct (year d =? year ld), (month d =? month ld); simpl; split;
      intros H; try discriminate; try tauto; destruct H; discriminate. }
  exists sy, sq, sm. auto 10.
Qed.

(** X7. As soon as the frame holds one non-null date, the four anchors are
    defined and ordered: the YTD anchor is at or before the QTD anchor, which
    is at or before the MTD anchor, which is at or before the latest date; the
    three are dates of the frame.  The 1M anchor, 30 days before the latest
    date, is never after the MTD anchor.  The quarter index is one of 0, 1, 2
    and 3. *)
Theorem anchors_ordered (df : list row) (ld : Date) :
  latest_date df = Some ld ->
  exists sy sq sm,
    periods df ld =
      [ ("YTD", Some sy); ("QTD", Some sq); ("MTD", Some sm);
        ("1M", Some (ld - 30)) ] /\
    sy <= sq /\ sq <= sm /\ sm <= ld /\ ld - 30 <= sm /\
    In (Some sy) (map date df) /\ In (Some sq) (map date df) /\
    In (Some sm) (map date df) /\
    0 <= latest_quarter ld <= 3.
Proof.
  intros Hld. destruct (col_max_spec _ _ Hld) as [Hin _].
  destruct (anchors_exist df ld Hld)
    as (sy & sq & sm & Esy & Esq & Esm & Hsy & Hsq & Hsm).
  destruct Hsy as (Iy & _ & My), Hsq as (Iq & [Pq1 Pq2] & Mq),
    Hsm as (Im & [Pm1 Pm2] & Mm).
  exists sy, sq, sm. split; [|split; [|split; [|split; [|split]]]].
  - unfold periods, month_ago, minus_days. now rewrite Esy, Esq, Esm.
  - now apply My.
  - apply Mq; [assumption|]. split; [assumption|]. now rewrite Pm2.
  - now apply Mm.
  - pose proof (same_month_within_30 ld sm (eq_sym Pm1) (eq_sym Pm2)). lia.
  - repeat split; try assumption;
      destruct (civil_inverse ld) as (_ & Hm & _); unfold latest_quarter;
      Z.to_euclidean_division_equations; lia.
Qed.

Lemma anchors_ordered_witness :
  exists sy sq sm,
    periods sample_df (ymd 2024 3 15) =
      [ ("YTD", Some sy); ("QTD", Some sq); ("MTD", Some sm);
        ("1M", Some (ymd 2024 3 15 - 30)) ] /\
    sy <= sq /\ sq <= sm /\ sm <= ymd 2024 3 15 /\
    ymd 2024 3 15 - 30 <= sm /\
    In (Some sy) (map date sample_df) /\ In (Some sq) (map date sample_df) /\
    In (Some sm) (map date sample_df) /\
    0 <= latest_quarter (ymd 2024 3 15) <= 3.
Proof. exact (anchors_ordered sample_df (ymd 2024 3 15) eq_refl). Defined.

(** A label names one anchor. *)
Lemma periods_functional (df : list row) (ld : Date)
  (p q : string * option Date) :
  In p (periods df ld) -> In q (periods df ld) -> fst p = fst q -> p = q.
Proof.
  unfold periods. simpl.
  intros [<-|[<-|[<-|[<-|[]]]]] [<-|[<-|[<-|[<-|[]]]]]; simpl;
    intros E; try discriminate; reflexivity.
Qed.

Lemma last_value_upto_some (c : option Date) (g : list row) (a : float) :
  last_value_upto c g = Some a ->
  exists r, In r g /\ upto c r = true /\ value r = Some a.
Proof.
  unfold last_value_upto. intros H.
  destruct (filter (upto c) g) as [|r0 l] eqn:E; [discriminate|].
  assert (Hne : filter (upto c) g <> []) by (rewrite E; discriminate).
  destruct (exists_last Hne) as (pre & r & E').
  rewrite <- E, E', map_app in H. simpl in H. rewrite col_last_app in H.
  assert (Hr : In r (filter (upto c) g))
    by (rewrite E'; apply in_or_app; right; now left).
  apply filter_In in Hr as [Hr Hu]. eauto.
Qed.

Lemma last_value_upto_last (c : option Date) (g pre : list row) (r : row) :
  filter (upto c) g = pre ++ [r] -> last_value_upto c g = value r.
Proof.
  intros E. unfold last_value_upto. rewrite E, map_app. simpl.
  apply col_last_app.
Qed.

(** X8. On tidy data a delta is defined exactly when there is something to
    compare with: for every region and label, the row of the region holds one
    entry for the label, and it is non-null if and only if the region has an
    observation dated at or before the label's anchor. *)
Theorem delta_defined_iff_observed
  (og os : Order.t) (df : list row) (ld : Date) (m : metric)
  (label : string) (c : Date) :
  tidy df -> latest_date df = Some ld ->
  In m (metrics og os df ld) ->
  In (label, Some c) (periods df ld) ->
  let g := group_rows df (m_region m) in
  (forall v v', In (label, v) (deltas m) -> In (label, v') (deltas m) ->
                v = v') /\
  ((exists x, In (label, Some x) (deltas m)) <->
   (exists r dr, In r g /\ date r = Some dr /\ dr <= c)).
Proof.
  intros Ht Hld Hm Hp g.
  destruct (metric_fields og os df ld m Hm) as (_ & Hv & Hd).
  fold g in Hv, Hd.
  assert (Hent : forall v, In (label, v) (deltas m) ->
                   v = bps (Valor m) (last_value_upto (Some c) g)).
  { intros v Hin. rewrite Hd in Hin.
    apply in_map_iff in Hin as (p & E & Hin). injection E as E1 E2.
    assert (p = (label, Some c))
      by (apply (periods_functional df ld); auto).
    subst p. now rewrite <- E2. }
  split.
  { intros v v' H1 H2. now rewrite (Hent v H1), (Hent v' H2). }
  destruct (valor_present og os df ld m Ht Hld Hm) as [cur Hcur].
  split.
  - intros [x Hx]. apply Hent in Hx. rewrite Hcur in Hx.
    destruct (last_value_upto (Some c) g) as [a|] eqn:E; [|discriminate].
    apply last_value_upto_some in E as (r & Hr & Hu & _).
    apply upto_true in Hu as (dr & cd & Hdr & Hcd & Hle).
    injection Hcd as <-. eauto.
  - intros (r & dr & Hr & Hdr & Hle).
    assert (Hne : filter (upto (Some c)) g <> []).
    { intros E. assert (H : In r (filter (upto (Some c)) g)).
      { apply filter_In. split; [assumption|]. apply upto_true. eauto. }
      now rewrite E in H. }
    destruct (exists_last Hne) as (pre & r' & E).
    assert (Hr' : In r' df).
    { assert (H : In r' (filter (upto (Some c)) g))
        by (rewrite E; apply in_or_app; right; now left).
      apply filter_In in H as [H _]. now apply in_group_rows in H. }
    unfold tidy in Ht. rewrite Forall_forall in Ht.
    destruct (Ht r' Hr') as (_ & _ & Hval).
    destruct (value r') as [a|] eqn:Ea; [|congruence].
    exists ((cur - a) * F64.hundred)%float.
    rewrite Hd. apply in_map_iff. exists (label, Some c). split; [|assumption].
    simpl. rewrite Hcur, (last_value_upto_last _ _ _ _ E), Ea. reflexivity.
Qed.

Lemma delta_defined_iff_observed_witness :
  let ld := ymd 2024 3 15 in
  let m := agg ld (periods sample_df ld)
               (Some "Africa", group_rows sample_df (Some "Africa")) in
  (exists x, In ("MTD", Some x) (deltas m)) <->
  (exists r dr, In r (group_rows sample_df (m_region m)) /\
                date r = Some dr /\ dr <= ymd 2024 3 1).
Proof.
  intros ld m.
  refine (proj2 (delta_defined_iff_observed [] [] sample_df ld m
                   "MTD" (ymd 2024 3 1) _ eq_refl _ _)).
  - repeat constructor; simpl; discriminate.
  - apply in_metrics. exists (Some "Africa").
    split; [simpl; tauto|reflexivity].
  - right. right. left. reflexivity.
Defined.

(** X9. A region with no observation after an anchor shows no change: if every
    observation of the region is dated at or before a label's anchor and the
    region's current value is a finite number, the label's delta is exactly
    0. *)
Theorem stale_region_delta_zero
  (og os : Order.t) (df : list row) (ld : Date) (m : metric)
  (label : string) (c : Date) (v : float) :
  latest_date df = Some ld ->
  In m (metrics og os df ld) ->
  In (label, Some c) (periods df ld) ->
  (forall r, In r (group_rows df (m_region m)) ->
             exists dr, date r = Some dr /\ dr <= c) ->
  Valor m = Some v -> F64.finite v = true ->
  In (label, Some 0%float) (deltas m).
Proof.
  intros Hld Hm Hp Hall Hv Hfin.
  destruct (metric_fields og os df ld m Hm) as (_ & Hcur & Hd).
  set (g := group_rows df (m_region m)) in *.
  assert (H1 : filter (upto (Some c)) g = g).
  { apply filter_all. intros r Hr. destruct (Hall r Hr) as (dr & Hdr & Hle).
    apply upto_true. eauto. }
  assert (H2 : filter (upto (Some ld)) g = g).
  { apply filter_all. intros r Hr. destruct (Hall r Hr) as (dr & Hdr & _).
    apply upto_true. exists dr, ld. repeat split; auto.
    apply (proj2 (col_max_spec _ _ Hld) dr).
    apply in_group_rows in Hr as [Hr _]. apply in_map_iff. eauto. }
  assert (E : last_value_upto (Some c) g = Valor m).
  { rewrite Hcur. unfold last_value_upto. now rewrite H1, H2. }
  rewrite Hd. apply in_map_iff. exists (label, Some c).
  split; [|assumption]. simpl. rewrite E, Hv. now rewrite bps_self.
Qed.

Lemma stale_region_delta_zero_witness :
  let ld := ymd 2024 3 15 in
  let df := sample_df ++ [obs (ymd 2024 2 1) "Oceania" 4%float] in
  In ("MTD", Some 0%float)
     (deltas (agg ld (periods df ld)
                  (Some "Oceania", group_rows df (Some "Oceania")))).
Proof.
  intros ld df.
  exact (stale_region_delta_zero [] [] df ld
           (agg ld (periods df ld)
                (Some "Oceania", group_rows df (Some "Oceania")))
           "MTD" (ymd 2024 3 1) 4%float eq_refl
           ltac:(apply in_metrics; exists (Some "Oceania");
                 split; [simpl; tauto|reflexivity])
           (or_intror (or_intror (or_introl eq_refl)))
           ltac:(intros r [<-|[]]; exists (ymd 2024 2 1);
                 split; [reflexivity|vm_compute; discriminate])
           eq_refl eq_refl).
Defined.

(** X10. On tidy data no spread is null: every row of the summary table holds
    a spread, whether a region matches the reference name or the mean stands
    in for it. *)
Theorem spread_never_null
  (og os : Order.t) (df : list row) (ld : Date) (t : summary) :
  tidy df -> latest_date df = Some ld ->
  In t (summary_table og os df ld) ->
  exists cur ref,
    Valor (s_metric t) = Some cur /\
    latam_val (metrics og os df ld) = Some ref /\
    Spread_vs_LatAm t = Some ((cur - ref) * 100)%float.
Proof.
  intros Ht Hld Hin. unfold summary_table, with_spread in Hin.
  apply in_map_iff in Hin as (m & <- & Hm). simpl.
  destruct (valor_present og os df ld m Ht Hld Hm) as [cur Hcur].
  assert (Href : exists ref, latam_val (metrics og os df ld) = Some ref).
  { unfold latam_val.
    destruct (latam_row (metrics og os df ld)) as [|m0 rest] eqn:E.
    - destruct (all_some Valor (metrics og os df ld)) as [vs Hvs].
      { intros m' Hm'. now apply (valor_present og os df ld). }
      rewrite Hvs. exists (F64.mean vs). apply col_mean_present.
      intros ->. simpl in Hvs. apply map_eq_nil in Hvs.
      now rewrite Hvs in Hm.
    - apply (valor_present og os df ld m0 Ht Hld).
      assert (H : In m0 (latam_row (metrics og os df ld)))
        by (rewrite E; now left).
      unfold latam_row in H. now apply filter_In in H. }
  destruct Href as [ref Href]. exists cur, ref.
  now rewrite Hcur, Href.
Qed.

Lemma spread_never_null_witness :
  exists cur ref,
    Valor (s_metric (mkSummary
      (agg (ymd 2024 3 15) (periods sample_df (ymd 2024 3 15))
           (Some "Asia", group_rows sample_df (Some "Asia")))
      (Some (-500)%float))) = Some cur /\
    latam_val (metrics [] [] sample_df (ymd 2024 3 15)) = Some ref /\
    Some (-500)%float = Some ((cur - ref) * 100)%float.
Proof.
  apply (spread_never_null [] [] sample_df (ymd 2024 3 15)
           (mkSummary
              (agg (ymd 2024 3 15) (periods sample_df (ymd 2024 3 15))
                   (Some "Asia", group_rows sample_df (Some "Asia")))
              (Some (-500)%float))).
  - repeat constructor; simpl; discriminate.
  - reflexivity.
  - vm_compute. tauto.
Defined.

(** X11. When several regions match the reference name without regard to
    case, the reference value is the current value of the one the sort puts
    first: no other matching region holds a larger number. *)
Theorem reference_is_first_match
  (og os : Order.t) (df : list row) (ld : Date) (m : metric)
  (rest : list metric) :
  latam_row (metrics og os df ld) = m :: rest ->
  latam_val (metrics og os df ld) = Valor m /\
  is_latam m = true /\
  forall m', In m' (metrics og os df ld) -> is_latam m' = true ->
    before m m' /\
    forall x y, Valor m = Some x -> Valor m' = Some y ->
                is_nan x = false -> is_nan y = false ->
                (y <=? x)%float = true.
Proof.
  intros Hrow.
  assert (Hs : StronglySorted before (latam_row (metrics og os df ld))).
  { unfold latam_row. apply StronglySorted_filter, sort_desc_sorted. }
  rewrite Hrow in Hs. apply StronglySorted_inv in Hs as [_ Hall].
  rewrite Forall_forall in Hall.
  assert (Hm : In m (latam_row (metrics og os df ld)))
    by (rewrite Hrow; now left).
  unfold latam_row in Hm. apply filter_In in Hm as [Hm Hlat].
  split; [unfold latam_val; now rewrite Hrow|]. split; [assumption|].
  intros m' Hm' Hlat'.
  assert (Hb : before m m').
  { assert (H : In m' (latam_row (metrics og os df ld)))
      by (apply filter_In; auto).
    rewrite Hrow in H. destruct H as [<-|H]; [|auto].
    unfold before. destruct (Valor m) as [x|]; simpl; [|reflexivity].
    unfold F64.geb. destruct (is_nan x) eqn:E; [reflexivity|].
    rewrite leb_spec. unfold SFleb.
    rewrite is_nan_spec in E. apply negb_false_iff in E.
    rewrite <- SFeqb_self in E. unfold SFeqb in E.
    now destruct (SFcompare (Prim2SF x) (Prim2SF x)) as [[| |]|]. }
  split; [assumption|].
  intros x y Hx Hy Nx Ny. unfold before in Hb. rewrite Hx, Hy in Hb.
  simpl in Hb. unfold F64.geb in Hb. now rewrite Nx, Ny in Hb.
Qed.

Lemma reference_is_first_match_witness :
  exists m,
    m_region m = Some "LATINO" /\
    latam_val (metrics [] [] two_latinos_df (ymd 2024 3 15)) = Valor m /\
    Valor m = Some 9%float.
Proof.
  pose (ld := ymd 2024 3 15).
  pose (m := agg ld (periods two_latinos_df ld)
               (Some "LATINO", group_rows two_latinos_df (Some "LATINO"))).
  pose (m' := agg ld (periods two_latinos_df ld)
                (Some "Latino", group_rows two_latinos_df (Some "Latino"))).
  exists m. split; [reflexivity|]. split; [|reflexivity].
  exact (proj1 (reference_is_first_match [] [] two_latinos_df ld m [m']
                  eq_refl)).
Defined.

(** X12. The current value of a region does not look at dates: in a frame
    whose dates are all present it is the value of the row of the region that
    is stored last, whatever that row's date. *)
Theorem current_value_is_last_stored
  (og os : Order.t) (df : list row) (ld : Date) (m : metric) :
  (forall r, In r df -> date r <> None) ->
  latest_date df = Some ld ->
  In m (metrics og os df ld) ->
  exists pre r,
    group_rows df (m_region m) = pre ++ [r] /\ Valor m = value r.
Proof.
  intros Hdates Hld Hm.
  destruct (metric_fields og os df ld m Hm) as (Hk & Hv & _).
  set (g := group_rows df (m_region m)) in *.
  assert (Hall : filter (upto (Some ld)) g = g).
  { apply filter_all. intros r Hr. apply in_group_rows in Hr as [Hr _].
    specialize (Hdates r Hr).
    destruct (date r) as [d|] eqn:E; [|congruence].
    apply upto_true. exists d, ld. repeat split; auto.
    apply (proj2 (col_max_spec _ _ Hld) d).
    apply in_map_iff. exists r. auto. }
  assert (Hne : g <> []).
  { apply in_map_iff in Hk as (r & Hr & Hin).
    assert (In r g) by (apply in_group_rows; auto).
    intros E. now rewrite E in *. }
  destruct (exists_last Hne) as (pre & r & E).
  exists pre, r. split; [assumption|].
  rewrite Hv. apply (last_value_upto_last (Some ld) g pre r).
  now rewrite Hall.
Qed.

Lemma current_value_is_last_stored_witness :
  exists pre r,
    group_rows unordered_df (Some "Asia") = pre ++ [r] /\
    Some 7%float = value r.
Proof.
  apply (current_value_is_last_stored [] [] unordered_df (ymd 2024 3 15)
           (agg (ymd 2024 3 15) (periods unordered_df (ymd 2024 3 15))
                (Some "Asia", group_rows unordered_df (Some "Asia")))).
  - intros r [<-|[<-|[]]]; discriminate.
  - reflexivity.
  - now left.
Defined.

(** ** Where the rolling mean is defined *)





(** ** The cleaning steps of [fetch_data.py] *)

Module FetchFacts.

Import Fetch.

Lemma fold_and3_true (cs : list (option bool)) (c : option bool) :
  fold_left Null.and3 cs c = Some true <->
  c = Some true /\ forall x, In x cs -> x = Some true.
Proof.
  revert c. induction cs as [|y cs IH]; intros c; simpl.
  - split; [intros H; split; [assumption|intros x []]|tauto].
  - rewrite IH. split.
    + intros [H1 H2].
      destruct c as [[|]|], y as [[|]|]; try discriminate.
      split; [reflexivity|]. intros x [<-|Hx]; auto.
    + intros [-> H]. rewrite (H y (or_introl eq_refl)).
      split; [reflexivity|]. intros x Hx. apply H. now right.
Qed.

Lemma condition_true (text : cell -> string) (x : option cell) :
  condition text x = Some true <-> clean text x.
Proof.
  unfold condition, clean, str_contains, not3. destruct x as [c|]; simpl.
  - destruct (contains "`" (cell_text text c)) eqn:E1,
      (contains "N/A" (cell_text text c)) eqn:E2; simpl; split;
      try discriminate; try (intros _; solve [eauto]);
      intros (c' & E & H1 & H2); injection E as <-; congruence.
  - split; [discriminate|intros (c & E & _); discriminate].
Qed.

(** X14. The row filter keeps the column names and keeps a row, in its place,
    exactly when everyone of its cells is clean: not null, and with a text
    that holds neither a backquote nor N/A.  A row with a missing cell is
    dropped like a row with a marked one. *)
Theorem filter_rows_keeps_clean (text : cell -> string) (t : table) :
  header t <> [] ->
  (forall r, In r (body t) -> List.length r = List.length (header t)) ->
  exists t',
    filter_rows text t = Some t' /\
    header t' = header t /\
    (exists keep, body t' = filter keep (body t)) /\
    forall r, In r (body t') <->
              In r (body t) /\ forall x, In x r -> clean text x.
Proof.
  intros Hh Hlen. unfold filter_rows.
  destruct (header t) as [|n ns] eqn:Eh; [congruence|].
  eexists. split; [reflexivity|]. cbn [header body].
  split; [reflexivity|]. split; [eauto|].
  intros r. rewrite filter_In.
  split; intros [Hr H]; (split; [assumption|]).
  - unfold filter_condition in H.
    destruct r as [|x0 r]; [discriminate|]. simpl in H.
    destruct (fold_left Null.and3 (map (condition text) r)
                (condition text x0)) as [[|]|] eqn:E; try discriminate.
    apply fold_and3_true in E as [E0 E].
    intros x [<-|Hx]; apply condition_true; [assumption|].
    apply E. now apply in_map.
  - unfold filter_condition.
    destruct r as [|x0 r].
    { specialize (Hlen [] Hr). discriminate. }
    simpl.
    replace (fold_left Null.and3 (map (condition text) r)
               (condition text x0)) with (Some true); [reflexivity|].
    symmetry. apply fold_and3_true. split.
    + apply condition_true. apply H. now left.
    + intros y Hy. apply in_map_iff in Hy as (x & <- & Hx).
      apply condition_true. apply H. now right.
Qed.

Lemma filter_rows_keeps_clean_witness :
  exists t',
    filter_rows (fun _ => "0.5")
      (mkTable ["Date"; "Asia"]
         [ [Some (CDate 19797); Some (CStr "3.1")];
           [Some (CDate 19798); Some (CStr "N/A")];
           [None; Some (CStr "3.3")] ]) = Some t' /\
    body t' = [ [Some (CDate 19797); Some (CStr "3.1")] ].
Proof.
  destruct (filter_rows_keeps_clean (fun _ => "0.5")
              (mkTable ["Date"; "Asia"]
                 [ [Some (CDate 19797); Some (CStr "3.1")];
                   [Some (CDate 19798); Some (CStr "N/A")];
                   [None; Some (CStr "3.3")] ]))
    as (t' & Ht & _).
  - discriminate.
  - intros r [<-|[<-|[<-|[]]]]; reflexivity.
  - exists t'. split; [exact Ht|].
    injection Ht as <-. reflexivity.
Defined.

(** X15. Moving [Date] to the front loses no column: when the names are
    distinct and [Date] is one of them, the new order lists the same names,
    [Date] first and the others in the order they had. *)
Theorem new_order_permutes (cols : list string) :
  NoDup cols -> In "Date" cols ->
  Permutation (new_order cols) cols /\
  NoDup (new_order cols) /\
  exists others,
    new_order cols = "Date" :: others /\
    others = filter (fun col => negb (String.eqb col "Date")) cols.
Proof.
  intros Hnd Hin.
  assert (Hp : Permutation (new_order cols) cols).
  { unfold new_order. induction cols as [|c cols IH]; [contradiction|].
    apply NoDup_cons_iff in Hnd as [Hc Hnd]. simpl.
    destruct (String.eqb c "Date") eqn:E; simpl.
    - apply String.eqb_eq in E. subst c. constructor.
      rewrite filter_all; [reflexivity|].
      intros x Hx. apply negb_true_iff, String.eqb_neq. congruence.
    - destruct Hin as [->|Hin]; [now rewrite String.eqb_refl in E|].
      rewrite perm_swap. constructor. now apply IH. }
  split; [assumption|]. split.
  - apply (Permutation_NoDup (Permutation_sym Hp) Hnd).
  - eexists. split; reflexivity.
Qed.

Lemma new_order_permutes_witness :
  Permutation (new_order ["Asia"; "Date"; "Africa"])
              ["Asia"; "Date"; "Africa"] /\
  NoDup (new_order ["Asia"; "Date"; "Africa"]) /\
  exists others,
    new_order ["Asia"; "Date"; "Africa"] = "Date" :: others /\
    others = filter (fun col => negb (String.eqb col "Date"))
                    ["Asia"; "Date"; "Africa"].
Proof.
  apply (new_order_permutes ["Asia"; "Date"; "Africa"]).
  - repeat constructor; simpl; intuition discriminate.
  - simpl. tauto.
Defined.

End FetchFacts.
